(** * byteps/mxnet/ops.cc: the MXNet push/pull entry point of BytePS

    A shallow embedding of [byteps/mxnet/ops.cc] and the properties of its
    synchronisation pipeline.  The file follows the source top-down:
    the anonymous-name counter and [GetOpName], the completion bridge
    [InvokeCompleteCallback], the three stage bodies [DoInit],
    [DoFirstStage], [DoSecondStage], and the C entry point
    [byteps_mxnet_push_pull_async].  Whatever the source only includes
    (byteps/common, the adapter headers, MXNet's engine and NDArray) is
    an interface here: a type class whose methods the theorems quantify
    over. *)

From Stdlib Require Import ZArith String Ascii List Lia Bool.
From Stdlib Require Import DecimalString DecimalZ.
From stdpp Require Import base option list gmap strings.

#[local] Open Scope Z_scope.
#[local] Open Scope string_scope.
#[local] Open Scope list_scope.

(* ===================================================================== *)
(** ** Machine integers *)

(** [int] is 32 bits wide.  [std::atomic_int::fetch_add] is defined to
    wrap around in two's complement (no undefined results). *)
Module Int32.

Definition modulus : Z := 2 ^ 32.
Definition min_signed : Z := - 2 ^ 31.
Definition max_signed : Z := 2 ^ 31 - 1.

Definition in_range (z : Z) : Prop := min_signed <= z <= max_signed.

(** The representative of [z] modulo [2^32] in the signed range. *)
Definition wrap (z : Z) : Z := (z + 2 ^ 31) mod modulus - 2 ^ 31.

Definition add (a b : Z) : Z := wrap (a + b).

End Int32.

(** [std::to_string(int)]: decimal digits, a leading [-] for negative
    values, ["0"] for zero. *)
Definition to_string (z : Z) : string := NilEmpty.string_of_int (Z.to_int z).

(* ===================================================================== *)
(** ** Status and errors (byteps/common/common.h, dmlc) *)

(** Modelled from the spec: [common::Status] is declared in
    byteps/common/common.h, which ops.cc includes and which is not
    verified here.  The spec gives it as [Ok] or [Error(reason)], with
    no partial success; ops.cc uses only [ok()] and [reason()]. *)
Inductive Status : Type :=
| StatusOK
| StatusError (reason : string).

Definition ok (s : Status) : bool :=
  match s with StatusOK => true | StatusError _ => false end.

Definition reason (s : Status) : string :=
  match s with StatusOK => "" | StatusError r => r end.

(** [dmlc::Error] is a [std::runtime_error]: it carries its message. *)
Record dmlc_Error : Type := Error { what : string }.

(* ===================================================================== *)
(** ** The completion bridge *)

(** [InvokeCompleteCallback(on_complete, status)], ops.cc lines 44-51.
    MXNet's [Callback] is callable with no argument or with a pointer to
    a [dmlc::Error]; the embedding passes [None] or [Some error].  The
    result type [A] is whatever the callback does. *)
Definition InvokeCompleteCallback {A : Type}
    (on_complete : option dmlc_Error -> A) (status : Status) : A :=
  if ok status then
    on_complete None
  else
    let error := Error (reason status) in
    on_complete (Some error).

(** A callback that only records how it was invoked. *)
Definition recording_callback (arg : option dmlc_Error)
    (log : list (option dmlc_Error)) : list (option dmlc_Error) :=
  log ++ [arg].

(* ===================================================================== *)
(** ** The naming utility on its own: the counter as the only state *)

Module Naming.

(** [std::atomic_int op_count;] at namespace scope: static storage,
    hence zero before the first call. *)
Definition op_count_init : Z := 0.

(** [op_count.fetch_add(1)]: the new value of the counter. *)
Definition fetch_add_1 (op_count : Z) : Z := Int32.add op_count 1.

(** [GetOpName(prefix, name)], ops.cc lines 34-41, run without
    interference: the returned string and the counter afterwards.
    [name] is [None] for [nullptr]; otherwise it is the characters the
    [char*] points to, up to its terminator. *)
Definition GetOpName (prefix : string) (name : option string)
    (op_count : Z) : string * Z :=
  match name with
  | Some name => (prefix +:+ "." +:+ name, op_count)
  | None =>
      let op_count := fetch_add_1 op_count in
      (prefix +:+ ".noname." +:+ to_string op_count, op_count)
  end.

(** [n] anonymous calls one after the other, oldest name first. *)
Fixpoint anonymous_calls (prefix : string) (n : nat) (op_count : Z)
    : list string * Z :=
  match n with
  | O => ([], op_count)
  | S n =>
      let '(s, c) := GetOpName prefix None op_count in
      let '(rest, c') := anonymous_calls prefix n c in
      (s :: rest, c')
  end.

(** *** Concurrent callers

    The anonymous path touches the shared counter twice: the
    [fetch_add] of line 39, whose result is dropped, and the separate
    atomic load that converts [op_count] to [int] for [std::to_string]
    on line 40.  Each is one atomic step; other threads may run between
    the two. *)
Inductive Thread : Type :=
| AtFetchAdd (prefix : string)      (* about to execute line 39 *)
| AtLoad (prefix : string)          (* about to execute line 40 *)
| Returned (result : string).

Definition thread_step (t : Thread) (op_count : Z) : Thread * Z :=
  match t with
  | AtFetchAdd prefix => (AtLoad prefix, fetch_add_1 op_count)
  | AtLoad prefix =>
      (Returned (prefix +:+ ".noname." +:+ to_string op_count), op_count)
  | Returned r => (Returned r, op_count)
  end.

(** One step of thread [i] of the pool [ts]; a thread id out of range
    steps nothing. *)
Definition pool_step (i : nat) (ts : list Thread) (op_count : Z)
    : list Thread * Z :=
  match ts !! i with
  | Some t =>
      let '(t', c) := thread_step t op_count in (<[i := t']> ts, c)
  | None => (ts, op_count)
  end.

(** A schedule names the thread that makes each successive step. *)
Fixpoint run_schedule (sched : list nat) (ts : list Thread) (op_count : Z)
    : list Thread * Z :=
  match sched with
  | [] => (ts, op_count)
  | i :: sched =>
      let '(ts', c) := pool_step i ts op_count in run_schedule sched ts' c
  end.

Definition result_of (t : Thread) : option string :=
  match t with Returned r => Some r | _ => None end.

End Naming.

(* ===================================================================== *)
(** ** MXNet: tensors and engine operations *)

(** An engine variable ([Engine::VarHandle]), as returned by
    [NDArray::var()]. *)
Definition Var := N.

(** [mxnet::Context]: device type and device id. *)
Record Context : Type := mkContext { dev_type : Z; dev_id : Z }.

(** [byteps::common::DataType], an enumeration; by its code. *)
Definition DataType := N.

(** [FnProperty] of MXNet's engine. *)
Inductive FnProperty : Type :=
| kNormal | kCopyFromGPU | kCopyToGPU | kCPUPrioritized | kAsync
| kDeleteVar | kGPUPrioritized.

(** Modelled from the spec: the Tensor Handle Adapter (MXNet's NDArray
    read through tensor_util.h, both outside ops.cc) exposes size,
    element type, device id and the buffer of an opaque tensor.  [nd_size], [nd_device] and [nd_dtype] are what
    [TensorUtil::GetSize], [GetDevice] and [GetDType] return; [nd_var]
    and [nd_ctx] are [NDArray::var()] and [NDArray::ctx()]. *)
Record NDArray (E : Type) : Type := mkNDArray {
  nd_var : Var;
  nd_ctx : Context;
  nd_size : Z;
  nd_device : Z;
  nd_dtype : DataType;
  nd_data : list E
}.
Arguments mkNDArray {E}.
Arguments nd_var {E}.
Arguments nd_ctx {E}.
Arguments nd_size {E}.
Arguments nd_device {E}.
Arguments nd_dtype {E}.
Arguments nd_data {E}.

(** An [NDArray*]: [None] is [nullptr], [Some a] the address [a]. *)
Definition NDArrayPtr := option N.

(** A [BPSContext&]: the registry slot the reference designates.  The
    context itself lives in the state of byteps/common, so two holders
    of the same reference see each other's updates. *)
Definition ContextRef := string.

(** The closures handed to the engine, as data: one constructor per
    lambda of [byteps_mxnet_push_pull_async], its arguments the
    captured variables ([tensor] is captured as a pointer, [context]
    by reference). *)
Inductive AsyncFn : Type :=
| init_async_fn (context : ContextRef) (tensor : NDArrayPtr)
    (tensor_name : string)
| first_stage_async_fn (context : ContextRef) (tensor : NDArrayPtr)
    (tensor_name : string) (version priority : Z)
| second_stage_async_fn (context : ContextRef) (tensor : NDArrayPtr)
    (tensor_name : string) (version priority : Z).

(** One call of [Engine::PushAsync], argument by argument. *)
Record Opr : Type := mkOpr {
  exec_fun : AsyncFn;
  exec_ctx : Context;
  const_vars : list Var;
  mutable_vars : list Var;
  prop : FnProperty;
  opr_priority : Z;
  opr_name : string
}.

(** Modelled from the spec: [BPSContext] is declared in
    byteps/common/common.h, outside ops.cc.  ops.cc reads only
    [cpubuff], the staging buffer ([None] for a null pointer);
    [initialized] is the context's [Ready] state. *)
Record BPSContext : Type := mkBPSContext {
  initialized : bool;
  cpubuff : option N
}.

(** What one asynchronous call into byteps/common amounts to: the
    [Status] it returns at once, the status it later passes to the
    callback it was given ([None] when it never calls back), and what
    it writes into the tensor it was handed, if anything. *)
Record Reply (E : Type) : Type := mkReply {
  returned : Status;
  delivered : option Status;
  written : option (list E)
}.
Arguments mkReply {E}.
Arguments returned {E}.
Arguments delivered {E}.
Arguments written {E}.

(** The interface ops.cc is compiled against.  [G] is the state behind
    byteps/common ([BytePSGlobal]: the initialised flag, the name
    registry, the queues to the aggregation service); [E] the type of
    tensor elements.  The methods are the functions of
    [../common/operations.h] that ops.cc calls, [CPU_DEVICE_ID] of
    common.h, [ps::NumWorkers] and the scalar division behind
    [NDArray::operator/=].  A method is a function of the library's
    state: a call returns, with its result and the state it leaves. *)
Class Common (G E : Type) : Type := {
  CPU_DEVICE_ID : Z;
  CheckInitialized : G -> Status;
  IsTensorInitialized : string -> Z -> Z -> DataType -> G -> bool * G;
  GetContextFromName : string -> G -> ContextRef * G;
  (** reading through a [BPSContext&] *)
  context_at : ContextRef -> G -> BPSContext;
  InitTensor : ContextRef -> NDArray E -> string -> Z -> G -> Reply E * G;
  EnqueueTensorPush :
    ContextRef -> NDArray E -> string -> Z -> Z -> Z -> G -> Reply E * G;
  EnqueueTensorPull :
    ContextRef -> NDArray E -> string -> Z -> Z -> Z -> G -> Reply E * G;
  NumWorkers : G -> Z;
  div_scalar : E -> Z -> E
}.

(* ===================================================================== *)
(** ** The process state and the monad of ops.cc *)

(** Modelled from the spec: [NDArray::operator/=] is MXNet's.  By
    sections 4.4 and 6 the caller issues the division right after
    submission, but it runs only after the pipeline's callbacks: it
    must occur only after the pull stage's callback signals success.
    A [Scaling] is such a division, issued and perhaps not carried out
    yet: the operation of the engine's queue whose success it waits
    for, the tensor, the divisor, and whether it has been carried
    out. *)
Record Scaling : Type := mkScaling {
  waits_on : nat;
  target : NDArrayPtr;
  divisor : Z;
  carried_out : bool
}.

Section Ops.

Context {G E : Type} `{!Common G E}.

Record World : Type := mkWorld {
  op_count : Z;                      (* the counter of anonymous names *)
  engine : list Opr;                 (* what was pushed, oldest first *)
  heap : gmap N (NDArray E);         (* the NDArray objects *)
  completions : list (nat * option dmlc_Error);
                                     (* engine callbacks invoked so far *)
  bps : G;                           (* the state of byteps/common *)
  scalings : list Scaling            (* divisions issued so far *)
}.

Definition set_op_count (c : Z) (w : World) : World :=
  mkWorld c (engine w) (heap w) (completions w) (bps w) (scalings w).
Definition set_engine (q : list Opr) (w : World) : World :=
  mkWorld (op_count w) q (heap w) (completions w) (bps w) (scalings w).
Definition set_heap (h : gmap N (NDArray E)) (w : World) : World :=
  mkWorld (op_count w) (engine w) h (completions w) (bps w) (scalings w).
Definition set_completions (l : list (nat * option dmlc_Error))
    (w : World) : World :=
  mkWorld (op_count w) (engine w) (heap w) l (bps w) (scalings w).
Definition set_bps (g : G) (w : World) : World :=
  mkWorld (op_count w) (engine w) (heap w) (completions w) g (scalings w).
Definition set_scalings (l : list Scaling) (w : World) : World :=
  mkWorld (op_count w) (engine w) (heap w) (completions w) (bps w) l.

(** How a piece of ops.cc can end. *)
Inductive Result (A : Type) : Type :=
| Ret (a : A) (w : World)            (* returned normally *)
| Throw (s : Status) (w : World)     (* [ThrowIfError] threw *)
| Fatal (msg : string) (w : World)   (* a [BPS_CHECK] failed *)
| Undefined.                         (* an invalid pointer was read *)
Arguments Ret {A}.
Arguments Throw {A}.
Arguments Fatal {A}.
Arguments Undefined {A}.

Definition M (A : Type) : Type := World -> Result A.

Definition ret {A : Type} (a : A) : M A := fun w => Ret a w.

Definition bind {A B : Type} (m : M A) (k : A -> M B) : M B :=
  fun w =>
    match m w with
    | Ret a w' => k a w'
    | Throw s w' => Throw s w'
    | Fatal msg w' => Fatal msg w'
    | Undefined => Undefined
    end.

Definition gets {A : Type} (f : World -> A) : M A := fun w => Ret (f w) w.
Definition modify (f : World -> World) : M unit := fun w => Ret tt (f w).

End Ops.

Arguments World : clear implicits.
Arguments Result : clear implicits.
Arguments M : clear implicits.
Arguments Ret {G E A}.
Arguments Throw {G E A}.
Arguments Fatal {G E A}.
Arguments Undefined {G E A}.

Notation "x <- m ;; k" := (bind m (fun x => k))
  (at level 100, m at next level, right associativity).
Notation "m ;;; k" := (bind m (fun _ => k))
  (at level 100, right associativity).

(* ===================================================================== *)
(** ** ops.cc *)

Section Pipeline.

Context {G E : Type} `{!Common G E}.

#[local] Abbreviation World := (World G E).
#[local] Abbreviation M := (M G E).

(** MXNet's [Callback], the [on_complete] the engine hands to an
    asynchronous function: what invoking it does to the process. *)
Definition Callback : Type := option dmlc_Error -> World -> World.

(** Modelled from the spec: [ThrowIfError] is declared in adapter.h,
    outside ops.cc.  A status that is not [Ok] is raised as an
    exception that carries it; [Ok] falls through. *)
Definition ThrowIfError (status : Status) : M unit :=
  fun w => if ok status then Ret tt w else Throw status w.

(** Modelled from the spec: [BPS_CHECK] belongs to byteps/common's
    logging header, outside ops.cc.  A failed check is fatal: it halts
    with the streamed message instead of returning. *)
Definition BPS_CHECK (cond : bool) (msg : string) : M unit :=
  fun w => if cond then Ret tt w else Fatal msg w.

(** Reading through an [NDArray*]. *)
Definition load (p : NDArrayPtr) (w : World) : option (NDArray E) :=
  match p with
  | None => None
  | Some a => heap w !! a
  end.

Definition deref (p : NDArrayPtr) : M (NDArray E) :=
  fun w => match load p w with Some nd => Ret nd w | None => Undefined end.

(** Overwriting the buffer of the tensor behind [p]. *)
Definition store_data (p : NDArrayPtr) (d : list E) (w : World) : World :=
  match p, load p w with
  | Some a, Some nd =>
      set_heap (<[a := mkNDArray (nd_var nd) (nd_ctx nd) (nd_size nd)
                         (nd_device nd) (nd_dtype nd) d]> (heap w)) w
  | _, _ => w
  end.

(** A call into byteps/common that takes the tensor ([byteps_input]
    shares the buffer of [input]) and a status callback: the library's
    state advances, the tensor receives what the call writes, the
    callback receives the status the call delivers, and the call's own
    [Status] is the result.  The library invokes the callback from its
    own threads, some time after the call; here the delivery is
    accounted for together with the call. *)
Definition async_call (f : G -> Reply E * G) (input : NDArrayPtr)
    (callback : Status -> World -> World) : M Status :=
  fun w =>
    let '(r, g) := f (bps w) in
    let w := set_bps g w in
    let w := match written r with Some d => store_data input d w | None => w end in
    let w := match delivered r with Some s => callback s w | None => w end in
    Ret (returned r) w.

(** [op_count.fetch_add(1)], line 39. *)
Definition fetch_add_op_count : M unit :=
  modify (fun w => set_op_count (Naming.fetch_add_1 (op_count w)) w).

(** [GetOpName], ops.cc lines 34-41, on the process state. *)
Definition GetOpName (prefix : string) (name : option string) : M string :=
  match name with
  | Some name => ret (prefix +:+ "." +:+ name)
  | None =>
      fetch_add_op_count ;;;
      c <- gets op_count ;;
      ret (prefix +:+ ".noname." +:+ to_string c)
  end.

(** [DoInit], ops.cc lines 53-66. *)
Definition DoInit (context : ContextRef) (input : NDArrayPtr)
    (name : string) (on_complete : Callback) : M unit :=
  st <- gets (fun w => CheckInitialized (bps w)) ;;
  ThrowIfError st ;;;
  byteps_input <- deref input ;;
  let device := nd_device byteps_input in
  init_result <-
    async_call (InitTensor context byteps_input name device) input
      (fun status => InvokeCompleteCallback on_complete status) ;;
  ThrowIfError init_result.

(** [DoFirstStage], ops.cc lines 68-86. *)
Definition DoFirstStage (context : ContextRef) (input : NDArrayPtr)
    (name : string) (version priority : Z) (on_complete : Callback)
    : M unit :=
  st <- gets (fun w => CheckInitialized (bps w)) ;;
  ThrowIfError st ;;;
  byteps_input <- deref input ;;
  let device := nd_device byteps_input in
  (if decide (device <> CPU_DEVICE_ID) then
     ctx <- gets (fun w => context_at context (bps w)) ;;
     BPS_CHECK (bool_decide (is_Some (cpubuff ctx)))
       (name +:+ ": cpu buffer not initialized.")
   else ret tt) ;;;
  enqueue_result <-
    async_call
      (EnqueueTensorPush context byteps_input name device priority version)
      input (fun status => InvokeCompleteCallback on_complete status) ;;
  ThrowIfError enqueue_result.

(** [DoSecondStage], ops.cc lines 88-106. *)
Definition DoSecondStage (context : ContextRef) (input : NDArrayPtr)
    (name : string) (version priority : Z) (on_complete : Callback)
    : M unit :=
  st <- gets (fun w => CheckInitialized (bps w)) ;;
  ThrowIfError st ;;;
  byteps_input <- deref input ;;
  let device := nd_device byteps_input in
  (if decide (device <> CPU_DEVICE_ID) then
     ctx <- gets (fun w => context_at context (bps w)) ;;
     BPS_CHECK (bool_decide (is_Some (cpubuff ctx)))
       (name +:+ ": cpu buffer not initialized.")
   else ret tt) ;;;
  enqueue_result <-
    async_call
      (EnqueueTensorPull context byteps_input name device priority version)
      input (fun status => InvokeCompleteCallback on_complete status) ;;
  ThrowIfError enqueue_result.

(** [Engine::Get()->PushAsync(...)]: the operation joins the engine's
    queue; running it is the engine's business. *)
Definition PushAsync (exec_fun : AsyncFn) (exec_ctx : Context)
    (const_vars mutable_vars : list Var) (prop : FnProperty)
    (priority : Z) (opr_name : string) : M unit :=
  modify (fun w =>
    set_engine
      (engine w ++
       [mkOpr exec_fun exec_ctx const_vars mutable_vars prop priority
          opr_name]) w).

(** Modelled from the spec: [*tensor /= num_worker], line 154, through
    MXNet's [NDArray::operator/=].  The statement is reached right
    after the three submissions; by sections 4.4 and 6 the scaling by
    [1 / workerCount] it asks for occurs only after the pull stage's
    callback has signalled success.  So the division is issued here,
    behind the operation pushed last (the pull stage of line 148), and
    carried out by [run_scaling]. *)
Definition div_assign (tensor : NDArrayPtr) (num_worker : Z) : M unit :=
  deref tensor ;;;
  modify (fun w =>
    set_scalings
      (scalings w ++
       [mkScaling (pred (length (engine w))) tensor num_worker false]) w).

(** [MX_API_BEGIN() ... MX_API_END()]: the body's normal completion
    makes the function return 0. *)
Definition MX_API (body : M unit) : M Z :=
  body ;;; ret 0.

(** [byteps_mxnet_push_pull_async], ops.cc lines 108-157. *)
Definition byteps_mxnet_push_pull_async (tensor : NDArrayPtr)
    (name : option string) (version priority : Z) : M Z :=
  MX_API (
    tensor_name <- GetOpName "byteps" name ;;
    nd <- deref tensor ;;
    let size := nd_size nd in
    let device := nd_device nd in
    let dtype := nd_dtype nd in
    is_init <-
      (fun w =>
         let '(b, g) :=
           IsTensorInitialized tensor_name size device dtype (bps w) in
         Ret b (set_bps g w)) ;;
    (if negb is_init then
       context <-
         (fun w =>
            let '(c, g) := GetContextFromName tensor_name (bps w) in
            Ret c (set_bps g w)) ;;
       PushAsync (init_async_fn context tensor tensor_name) (nd_ctx nd)
         [] [nd_var nd] kNormal 0 "BytePSInit"
     else ret tt) ;;;
    context <-
      (fun w =>
         let '(c, g) := GetContextFromName tensor_name (bps w) in
         Ret c (set_bps g w)) ;;
    PushAsync
      (first_stage_async_fn context tensor tensor_name version priority)
      (nd_ctx nd) [nd_var nd] [] kNormal 0 "BytePSFirstStage" ;;;
    PushAsync
      (second_stage_async_fn context tensor tensor_name version priority)
      (nd_ctx nd) [] [nd_var nd] kNormal 0 "BytePSSecondStage" ;;;
    num_worker <- gets (fun w => NumWorkers (bps w)) ;;
    div_assign tensor num_worker).

(** *** Running what was pushed *)

(** Calling a pushed closure: the lambda bodies of lines 125, 136 and
    145.  None of them uses its [RunContext]. *)
Definition call_async_fn (f : AsyncFn) (on_complete : Callback) : M unit :=
  match f with
  | init_async_fn context tensor tensor_name =>
      DoInit context tensor tensor_name on_complete
  | first_stage_async_fn context tensor tensor_name version priority =>
      DoFirstStage context tensor tensor_name version priority on_complete
  | second_stage_async_fn context tensor tensor_name version priority =>
      DoSecondStage context tensor tensor_name version priority on_complete
  end.

(** The [on_complete] the engine passes to operation number [i]: its
    invocation is recorded. *)
Definition engine_on_complete (i : nat) : Callback :=
  fun err w => set_completions (completions w ++ [(i, err)]) w.

(** The engine runs operation number [i] of its queue. *)
Definition run_opr (i : nat) : M unit :=
  fun w =>
    match engine w !! i with
    | Some o => call_async_fn (exec_fun o) (engine_on_complete i) w
    | None => Ret tt w
    end.

(** Operation number [i] has signalled success through its
    callback. *)
Definition succeeded (i : nat) (w : World) : bool :=
  existsb
    (fun c =>
       Nat.eqb (fst c) i
       && match snd c with None => true | Some _ => false end)
    (completions w).

(** Modelled from the spec: carrying out division number [k], sections
    4.4 and 6.  It occurs only after the callback of the operation it
    waits for (the pull stage) has signalled success, and once; then
    every element of the tensor is divided by the worker count. *)
Definition run_scaling (k : nat) : M unit :=
  fun w =>
    match scalings w !! k with
    | Some sc =>
        if negb (carried_out sc) && succeeded (waits_on sc) w then
          (nd <- deref (target sc) ;;
           modify (fun w =>
             set_scalings
               (<[k := mkScaling (waits_on sc) (target sc) (divisor sc)
                         true]> (scalings w))
               (store_data (target sc)
                  (map (fun x => div_scalar x (divisor sc)) (nd_data nd))
                  w))) w
        else Ret tt w
    | None => Ret tt w
    end.

End Pipeline.

(* ===================================================================== *)
(** ** The host scheduler's contract *)

Module EngineContract.

(** What an execution of the engine shows of operation number [i] of
    its queue: the engine starts running its function, and the function
    signals completion through its [on_complete]. *)
Inductive Event : Type :=
| Start (i : nat)
| Complete (i : nat).

Definition mem_var (v : Var) (vs : list Var) : bool := existsb (N.eqb v) vs.
Definition mem_nat (i : nat) (l : list nat) : bool := existsb (Nat.eqb i) l.

Definition shares (xs ys : list Var) : bool :=
  existsb (fun x => mem_var x ys) xs.

(** [later] must wait for [earlier]: it reads or writes a variable that
    [earlier] writes, or writes one that [earlier] reads. *)
Definition waits_for (later earlier : Opr) : bool :=
  shares (mutable_vars earlier) (const_vars later ++ mutable_vars later)
  || shares (const_vars earlier) (mutable_vars later).

(** Operation [j] may start once every operation pushed before it that
    it must wait for has completed. *)
Definition ready (ops : list Opr) (completed : list nat) (j : nat) : bool :=
  match ops !! j with
  | None => false
  | Some oj =>
      forallb
        (fun i =>
           match ops !! i with
           | Some oi => implb (waits_for oj oi) (mem_nat i completed)
           | None => true
           end)
        (seq 0 j)
  end.

(** Modelled from the spec: MXNet's engine is not part of this
    repository.  Section 5 gives its contract: a task that reads a
    tensor waits for all prior writers to finish, a task that writes it
    waits for all prior readers and writers, and a task finishes when
    its completion callback is invoked.  [honours ops started completed
    tr] checks the events [tr] against that contract, given which
    operations were started and completed before. *)
Fixpoint honours (ops : list Opr) (started completed : list nat)
    (tr : list Event) : bool :=
  match tr with
  | [] => true
  | Start j :: tr =>
      negb (mem_nat j started) && ready ops completed j
      && honours ops (j :: started) completed tr
  | Complete j :: tr =>
      mem_nat j started && negb (mem_nat j completed)
      && honours ops started (j :: completed) tr
  end.

(** An execution of the queue [ops] from the start. *)
Definition execution (ops : list Opr) (tr : list Event) : bool :=
  honours ops [] [] tr.

(** [e1] occurs in [tr], and [e2] not before it. *)
Definition precedes (e1 e2 : Event) (tr : list Event) : Prop :=
  forall pre post, tr = pre ++ e2 :: post -> In e1 pre.

End EngineContract.

(* ===================================================================== *)
(** ** What a call leaves behind *)

(** The stage a pushed operation runs. *)
Inductive Stage : Type := Initializer | Push | Pull.

Definition stage_of (o : Opr) : Stage :=
  match exec_fun o with
  | init_async_fn _ _ _ => Initializer
  | first_stage_async_fn _ _ _ _ _ => Push
  | second_stage_async_fn _ _ _ _ _ => Pull
  end.

(** The tensor a pushed operation works on. *)
Definition tensor_of (o : Opr) : NDArrayPtr :=
  match exec_fun o with
  | init_async_fn _ t _ => t
  | first_stage_async_fn _ t _ _ _ => t
  | second_stage_async_fn _ t _ _ _ => t
  end.

(** Whether a stage ended in a failed [BPS_CHECK]. *)
Definition is_fatal {G E A : Type} (r : Result G E A) : bool :=
  match r with Fatal _ _ => true | _ => false end.

(** The two tails of the stages: enqueue, then raise the call's own
    status if it is an error. *)
Definition push_tail {G E : Type} `{!Common G E} (context : ContextRef) (input : NDArrayPtr)
    (nd : NDArray E) (name : string)
    (version priority : Z) (on_complete : Callback) : M G E unit :=
  enqueue_result <-
    async_call
      (EnqueueTensorPush context nd name (nd_device nd) priority version)
      input (fun status => InvokeCompleteCallback on_complete status) ;;
  ThrowIfError enqueue_result.

Definition pull_tail {G E : Type} `{!Common G E} (context : ContextRef) (input : NDArrayPtr)
    (nd : NDArray E) (name : string)
    (version priority : Z) (on_complete : Callback) : M G E unit :=
  enqueue_result <-
    async_call
      (EnqueueTensorPull context nd name (nd_device nd) priority version)
      input (fun status => InvokeCompleteCallback on_complete status) ;;
  ThrowIfError enqueue_result.

(** The world a computation ends in, however it ends. *)
Definition final {G E A : Type} (r : Result G E A) : option (World G E) :=
  match r with
  | Ret _ w | Throw _ w | Fatal _ w => Some w
  | Undefined => None
  end.

(** The dependencies a stage on the engine variable [v] declares: the
    push stage reads [v], the initialiser and the pull stage write
    it. *)
Definition declared_on (v : Var) (o : Opr) : Prop :=
  match stage_of o with
  | Push => const_vars o = [v] /\ mutable_vars o = []
  | Initializer | Pull => const_vars o = [] /\ mutable_vars o = [v]
  end.

Section Reach.

Context {G E : Type} `{!Common G E}.

(** The engine variable of the tensor behind a pointer. *)
Definition tensor_var (p : NDArrayPtr) (w : World G E) : option Var :=
  nd_var <$> load p w.

(** Every operation in the queue declares the variable of its own
    tensor. *)
Definition well_declared (w : World G E) : Prop :=
  Forall
    (fun o => exists v, tensor_var (tensor_of o) w = Some v /\ declared_on v o)
    (engine w).

(** The states of a process in which nothing but
    [byteps_mxnet_push_pull_async] pushes to the engine: calls of the
    entry point, runs of pushed operations and divisions carried out,
    in any order, from a state with an empty queue. *)
Inductive reachable : World G E -> Prop :=
| reach_start (w : World G E) :
    engine w = [] -> reachable w
| reach_call (w w' : World G E) (tensor : NDArrayPtr)
    (name : option string) (version priority rc : Z) :
    reachable w ->
    byteps_mxnet_push_pull_async tensor name version priority w = Ret rc w' ->
    reachable w'
| reach_run (w w' : World G E) (i : nat) :
    reachable w ->
    final (run_opr i w) = Some w' ->
    reachable w'
| reach_scaling (w w' : World G E) (k : nat) :
    reachable w ->
    final (run_scaling k w) = Some w' ->
    reachable w'.

End Reach.

(* ===================================================================== *)
(** ** A stand-in for byteps/common *)

Module Sim.

(** Modelled from the spec: byteps/common lies outside ops.cc.  This
    stand-in follows sections 4.1, 4.2 and 7: a runtime
    flag behind [CheckInitialized] ([NotInitialized] when unset), a
    registry from names to contexts created on first use, an
    Initializer that allocates the staging buffer of an off-host tensor
    and marks the context ready, and an aggregation service whose
    answer to a push ([push_outcome]) and whose aggregate
    ([aggregate]) are given.  Elements are integers, divided as C
    does. *)
Record State : Type := mkState {
  runtime_ready : bool;
  registry : gmap string BPSContext;
  push_outcome : Status;
  aggregate : list Z;
  workers : Z
}.

Definition set_registry (r : gmap string BPSContext) (g : State) : State :=
  mkState (runtime_ready g) r (push_outcome g) (aggregate g) (workers g).

Definition fresh_context : BPSContext := mkBPSContext false None.

Definition host : Z := -1.

(** Modelled from the spec: the operations of byteps/common over
    [State], as sections 4.1 to 4.4 describe them. *)
#[global] Instance common : Common State Z := {|
  CPU_DEVICE_ID := host;
  CheckInitialized g :=
    if runtime_ready g then StatusOK else StatusError "NotInitialized";
  IsTensorInitialized name size device dtype g :=
    (match registry g !! name with
     | Some c => initialized c
     | None => false
     end, g);
  GetContextFromName name g :=
    (name,
     match registry g !! name with
     | Some _ => g
     | None => set_registry (<[name := fresh_context]> (registry g)) g
     end);
  context_at ref g := default fresh_context (registry g !! ref);
  InitTensor ref nd name device g :=
    (mkReply StatusOK (Some StatusOK) None,
     set_registry
       (<[ref := mkBPSContext true
                   (if decide (device = host) then None else Some 4096%N)]>
          (registry g)) g);
  EnqueueTensorPush ref nd name device priority version g :=
    (mkReply StatusOK (Some (push_outcome g)) None, g);
  EnqueueTensorPull ref nd name device priority version g :=
    (mkReply StatusOK (Some StatusOK) (Some (aggregate g)), g);
  NumWorkers g := workers g;
  div_scalar x n := Z.quot x n
|}.

(** Two workers, runtime up, nothing registered; the service accepts
    pushes and holds the aggregate [[10; 20]]. *)
Definition service : State := mkState true ∅ StatusOK [10; 20] 2.

(** The same, with a service that rejects every push. *)
Definition failing_push : State :=
  mkState true ∅ (StatusError "push rejected") [10; 20] 2.

(** The same as [service], before the runtime was initialised. *)
Definition not_ready : State := mkState false ∅ StatusOK [10; 20] 2.

(** A host tensor [[4; 8]] and a tensor [[6; 9]] on GPU 0. *)
Definition host_tensor : NDArray Z :=
  mkNDArray 7%N (mkContext 1 0) 8 host 4%N [4; 8].
Definition gpu_tensor : NDArray Z :=
  mkNDArray 9%N (mkContext 2 0) 8 0 4%N [6; 9].

Definition tensors : gmap N (NDArray Z) :=
  <[1%N := host_tensor]> (<[2%N := gpu_tensor]> ∅).

(** A process that has just started, over a given library state. *)
Definition boot (g : State) : World State Z :=
  mkWorld Naming.op_count_init [] tensors [] g [].



(** The stages of the operations in the engine's queue where a
    computation ends. *)
Definition stages_after {A : Type} (r : Result State Z A)
    : option (list Stage) :=
  (fun w => map stage_of (engine w)) <$> final r.

(** The process after its first call of [byteps_mxnet_push_pull_async],
    on the tensor at [a] under the user name [name], version and
    priority 0. *)
Definition synced (g : State) (a : N) (name : option string)
    : World State Z :=
  default (boot g)
    (final (byteps_mxnet_push_pull_async (Some a) name 0 0 (boot g))).

End Sim.

(* ===================================================================== *)
(** ** A registry that answers by the name alone *)

Module Eager.

(** Modelled from the spec: a second stand-in for byteps/common, over
    the state of [Sim].  By section 2 a request checks the registry and
    submits the initialisation task if the name is absent; by section
    4.1 [isInitialized] answers true for a name only if a context
    exists for it, and contexts are created once per name.  Here
    [IsTensorInitialized] answers true as soon as a context exists for
    the name, whichever tensor the name first came with; everything
    else is as in [Sim]. *)
Record State : Type := mkState { lib : Sim.State }.

Definition lift {A : Type} (f : Sim.State -> A * Sim.State) (g : State)
    : A * State :=
  (fst (f (lib g)), mkState (snd (f (lib g)))).

(** Modelled from the spec: the operations of byteps/common of [Sim],
    but for [IsTensorInitialized], which looks for the context of the
    name (section 2: the request checks the registry). *)
#[global] Instance common : Common State Z := {|
  CPU_DEVICE_ID := Sim.host;
  CheckInitialized g := CheckInitialized (lib g);
  IsTensorInitialized name size device dtype g :=
    (bool_decide (is_Some (Sim.registry (lib g) !! name)), g);
  GetContextFromName name := lift (GetContextFromName name);
  context_at ref g := context_at ref (lib g);
  InitTensor ref nd name device := lift (InitTensor ref nd name device);
  EnqueueTensorPush ref nd name device priority version :=
    lift (EnqueueTensorPush ref nd name device priority version);
  EnqueueTensorPull ref nd name device priority version :=
    lift (EnqueueTensorPull ref nd name device priority version);
  NumWorkers g := NumWorkers (lib g);
  div_scalar x n := Z.quot x n
|}.

(** A second host tensor, of the size, device and element type of
    [Sim.host_tensor], with an engine variable of its own. *)
Definition twin_tensor : NDArray Z :=
  mkNDArray 11%N (mkContext 1 0) 8 Sim.host 4%N [1; 2].

Definition tensors : gmap N (NDArray Z) := <[3%N := twin_tensor]> Sim.tensors.

(** A process that has just started, over the library state of
    [Sim.service]. *)
Definition boot : World State Z :=
  mkWorld Naming.op_count_init [] tensors [] (mkState Sim.service) [].

(** The process after a call on [Sim.host_tensor] and a call on
    [twin_tensor], both under the user name [grad]. *)
Definition synced_twins : World State Z :=
  default boot
    (final
       ((byteps_mxnet_push_pull_async (Some 1%N) (Some "grad") 0 0 ;;;
         byteps_mxnet_push_pull_async (Some 3%N) (Some "grad") 0 0) boot)).

(** An execution of its queue: push and pull stage of the second call,
    then the initialiser of the first. *)
Definition twins_first : list EngineContract.Event :=
  [EngineContract.Start 3; EngineContract.Complete 3;
   EngineContract.Start 4; EngineContract.Complete 4;
   EngineContract.Start 0; EngineContract.Complete 0].

End Eager.

(* ===================================================================== *)
(** ** Sequences of requests, pools of callers, queue shapes *)

(** A sequence of calls of [GetOpName], one after the other, some with
    a user name and some without: the names returned, oldest first, and
    the counter afterwards. *)
Fixpoint requests (prefix : string) (names : list (option string))
    (op_count : Z) : list string * Z :=
  match names with
  | [] => ([], op_count)
  | name :: names =>
      let '(s, c) := Naming.GetOpName prefix name op_count in
      let '(rest, c') := requests prefix names c in
      (s :: rest, c')
  end.

(** How many of the requests came without a user name. *)
Fixpoint anonymous_count (names : list (option string)) : nat :=
  match names with
  | [] => O
  | None :: names => S (anonymous_count names)
  | Some _ :: names => anonymous_count names
  end.

(** The results of the requests that came without a user name. *)
Fixpoint anonymous_results (names : list (option string))
    (results : list string) : list string :=
  match names, results with
  | None :: names, r :: results => r :: anonymous_results names results
  | Some _ :: names, _ :: results => anonymous_results names results
  | _, _ => []
  end.

(** A caller that has executed the [fetch_add] of line 39. *)
Definition past_fetch_add (t : Naming.Thread) : bool :=
  match t with Naming.AtFetchAdd _ => false | _ => true end.

Definition progressed (ts : list Naming.Thread) : nat :=
  length (filter (fun t => past_fetch_add t = true) ts).

(** The schedule under which callers [first], [first + 1], ... run
    [GetOpName] one at a time, as under a lock. *)
Fixpoint serial (first n : nat) : list nat :=
  match n with
  | O => []
  | S n => first :: first :: serial (S first) n
  end.

(** What the closure of a pushed operation captured. *)
Definition context_of (o : Opr) : ContextRef :=
  match exec_fun o with
  | init_async_fn c _ _ => c
  | first_stage_async_fn c _ _ _ _ => c
  | second_stage_async_fn c _ _ _ _ => c
  end.

Definition name_of (o : Opr) : string :=
  match exec_fun o with
  | init_async_fn _ _ n => n
  | first_stage_async_fn _ _ n _ _ => n
  | second_stage_async_fn _ _ n _ _ => n
  end.

(** The version and priority a stage closure carries; the initialiser
    captures neither. *)
Definition hints_of (o : Opr) : option (Z * Z) :=
  match exec_fun o with
  | init_async_fn _ _ _ => None
  | first_stage_async_fn _ _ _ version priority => Some (version, priority)
  | second_stage_async_fn _ _ _ version priority => Some (version, priority)
  end.

(** The operation name each stage is pushed under. *)
Definition label (st : Stage) : string :=
  match st with
  | Initializer => "BytePSInit"
  | Push => "BytePSFirstStage"
  | Pull => "BytePSSecondStage"
  end.

(** The pull closure that belongs to a push closure: same context,
    tensor, name, version and priority. *)
Definition pull_for (push : Opr) : option AsyncFn :=
  match exec_fun push with
  | first_stage_async_fn c t n version priority =>
      Some (second_stage_async_fn c t n version priority)
  | _ => None
  end.

(** A queue made of one block per call: an initialiser or none, then a
    push stage, then the pull stage that belongs to it, all for one
    tensor and one name. *)
Inductive request_blocks : list Opr -> Prop :=
| blocks_nil : request_blocks []
| blocks_call (q init : list Opr) (push pull : Opr) :
    request_blocks q ->
    pull_for push = Some (exec_fun pull) ->
    Forall
      (fun o => stage_of o = Initializer /\ tensor_of o = tensor_of push
                /\ name_of o = name_of push) init ->
    (length init <= 1)%nat ->
    request_blocks (q ++ init ++ [push; pull]).

Section StageCalls.

Context {G E : Type} `{!Common G E}.

(** The call into byteps/common a pushed closure makes on the tensor
    [nd]: lines 59, 80 and 100. *)
Definition library_call (f : AsyncFn) (nd : NDArray E) : G -> Reply E * G :=
  match f with
  | init_async_fn c _ n => InitTensor c nd n (nd_device nd)
  | first_stage_async_fn c _ n version priority =>
      EnqueueTensorPush c nd n (nd_device nd) priority version
  | second_stage_async_fn c _ n version priority =>
      EnqueueTensorPull c nd n (nd_device nd) priority version
  end.

(** Whether a closure passes the staging-buffer test of lines 75-77
    and 95-97 on the tensor [nd]: the initialiser has no such test, a
    host tensor is exempt, and otherwise the context must hold a
    buffer. *)
Definition staging_ok (f : AsyncFn) (nd : NDArray E) (g : G) : bool :=
  match f with
  | init_async_fn _ _ _ => true
  | first_stage_async_fn c _ _ _ _ | second_stage_async_fn c _ _ _ _ =>
      bool_decide (nd_device nd = CPU_DEVICE_ID)
      || bool_decide (is_Some (cpubuff (context_at c g)))
  end.

(** The tensor a closure captured. *)
Definition captured (f : AsyncFn) : NDArrayPtr :=
  match f with
  | init_async_fn _ t _ => t
  | first_stage_async_fn _ t _ _ _ => t
  | second_stage_async_fn _ t _ _ _ => t
  end.

(** What the engine's callback of operation [i] is handed for a
    status. *)
Definition reported (i : nat) (s : Status) : nat * option dmlc_Error :=
  (i, if ok s then None else Some (Error (reason s))).

End StageCalls.

(** The stand-in process after a call on the host tensor, the run of
    its initialiser, and a second call on the same tensor and name. *)
Definition synced_twice : World Sim.State Z :=
  default (Sim.boot Sim.service)
    (final
       ((byteps_mxnet_push_pull_async (Some 1%N) (Some "grad") 0 0 ;;;
         run_opr 0 ;;;
         byteps_mxnet_push_pull_async (Some 1%N) (Some "grad") 1 0)
          (Sim.boot Sim.service))).

(** The stand-in process after a call on the host tensor and a call on
    the GPU tensor. *)
Definition synced_both : World Sim.State Z :=
  default (Sim.boot Sim.service)
    (final
       ((byteps_mxnet_push_pull_async (Some 1%N) (Some "grad") 0 0 ;;;
         byteps_mxnet_push_pull_async (Some 2%N) (Some "w") 0 0)
          (Sim.boot Sim.service))).

(* ===================================================================== *)
(** * Properties *)

(** ** 32-bit arithmetic and decimal printing *)

Lemma wrap_in_range (z : Z) : Int32.in_range (Int32.wrap z).
Proof.
  unfold Int32.in_range, Int32.wrap, Int32.modulus, Int32.min_signed,
    Int32.max_signed.
  pose proof (Z.mod_pos_bound (z + 2 ^ 31) (2 ^ 32) ltac:(lia)). lia.
Qed.

Lemma wrap_small (z : Z) : Int32.in_range z -> Int32.wrap z = z.
Proof.
  unfold Int32.in_range, Int32.wrap, Int32.modulus, Int32.min_signed,
    Int32.max_signed.
  intros Hz. rewrite Z.mod_small by lia. lia.
Qed.

Lemma wrap_wrap_add (a b : Z) :
  Int32.wrap (Int32.wrap a + b) = Int32.wrap (a + b).
Proof.
  unfold Int32.wrap, Int32.modulus.
  replace ((a + 2 ^ 31) mod 2 ^ 32 - 2 ^ 31 + b + 2 ^ 31)
    with ((a + 2 ^ 31) mod 2 ^ 32 + b) by lia.
  rewrite Zplus_mod_idemp_l. f_equal. f_equal. lia.
Qed.

(** Two integers less than [2^32] apart wrap to different values. *)
Lemma wrap_inj_window (x y : Z) :
  Z.abs (x - y) < Int32.modulus -> Int32.wrap x = Int32.wrap y -> x = y.
Proof.
  unfold Int32.wrap, Int32.modulus. intros Hd Heq.
  assert (Hm : (x + 2 ^ 31) mod 2 ^ 32 = (y + 2 ^ 31) mod 2 ^ 32) by lia.
  pose proof (Z.div_mod (x + 2 ^ 31) (2 ^ 32) ltac:(lia)) as Hx.
  pose proof (Z.div_mod (y + 2 ^ 31) (2 ^ 32) ltac:(lia)) as Hy.
  rewrite Hm in Hx.
  change (2 ^ 32) with 4294967296 in *. change (2 ^ 31) with 2147483648 in *.
  lia.
Qed.

Lemma fetch_add_1_below_max (c : Z) :
  Int32.in_range c -> c < Int32.max_signed -> Naming.fetch_add_1 c = c + 1.
Proof.
  intros Hc Hlt. unfold Naming.fetch_add_1, Int32.add.
  apply wrap_small. unfold Int32.in_range in *.
  unfold Int32.min_signed, Int32.max_signed in *. lia.
Qed.

Lemma fetch_add_1_at_max :
  Naming.fetch_add_1 Int32.max_signed = Int32.min_signed.
Proof. reflexivity. Qed.

Lemma to_string_inj (x y : Z) : to_string x = to_string y -> x = y.
Proof.
  unfold to_string. intros Heq. apply to_int_inj.
  assert (Hs : Some (Z.to_int x) = Some (Z.to_int y)).
  { rewrite <- (NilEmpty.isi (Z.to_int x)), <- (NilEmpty.isi (Z.to_int y)).
    now rewrite Heq. }
  now injection Hs.
Qed.

(** Anonymous names differ as soon as their numbers do. *)
Lemma noname_inj (prefix : string) (x y : Z) :
  prefix +:+ ".noname." +:+ to_string x = prefix +:+ ".noname." +:+ to_string y ->
  x = y.
Proof.
  intros Heq. apply String.app_inj in Heq. apply String.app_inj in Heq.
  now apply to_string_inj.
Qed.

(** ** The naming utility *)

(** After [n] sequential anonymous calls the counter has advanced by
    [n], modulo [2^32]. *)
Lemma anonymous_calls_counter (prefix : string) (n : nat) (c : Z) :
  Int32.in_range c ->
  snd (Naming.anonymous_calls prefix n c) = Int32.wrap (c + Z.of_nat n).
Proof.
  revert c. induction n as [|n IH]; intros c Hc.
  - cbn [Naming.anonymous_calls snd]. rewrite Z.add_0_r.
    symmetry. now apply wrap_small.
  - cbn [Naming.anonymous_calls Naming.GetOpName].
    destruct (Naming.anonymous_calls prefix n (Naming.fetch_add_1 c))
      as [rest c'] eqn:Hrest.
    cbn [snd]. specialize (IH (Naming.fetch_add_1 c) (wrap_in_range _)).
    rewrite Hrest in IH. cbn [snd] in IH. rewrite IH.
    unfold Naming.fetch_add_1, Int32.add.
    rewrite wrap_wrap_add. f_equal. lia.
Qed.

(** The names of [n] sequential anonymous calls: the counter values
    [c+1], ..., [c+n], wrapped. *)
Lemma anonymous_calls_names (prefix : string) (n : nat) (c : Z) :
  fst (Naming.anonymous_calls prefix n c) =
  map (fun k => prefix +:+ ".noname." +:+ to_string (Int32.wrap (c + Z.of_nat k)))
      (seq 1 n).
Proof.
  revert c. induction n as [|n IH]; intros c; [reflexivity|].
  cbn [Naming.anonymous_calls Naming.GetOpName].
  destruct (Naming.anonymous_calls prefix n (Naming.fetch_add_1 c))
    as [rest c'] eqn:Hrest.
  cbn [fst seq map]. f_equal.
  specialize (IH (Naming.fetch_add_1 c)). rewrite Hrest in IH.
  cbn [fst] in IH. rewrite IH, <- (seq_shift n 1), map_map.
  apply map_ext. intros k. unfold Naming.fetch_add_1, Int32.add.
  rewrite wrap_wrap_add.
  now replace (c + 1 + Z.of_nat k) with (c + Z.of_nat (S k)) by lia.
Qed.

(** X1: called one after the other, up to [2^32] anonymous requests get
    pairwise distinct names. *)
Lemma sequential_names_distinct (prefix : string) (n : nat) (c : Z) :
  Z.of_nat n <= Int32.modulus ->
  NoDup (fst (Naming.anonymous_calls prefix n c)).
Proof.
  intros Hn. rewrite anonymous_calls_names.
  apply (NoDup_fmap_2_strong _ (seq 1 n)); [|apply NoDup_seq].
  intros x y Hx Hy Heq.
  apply elem_of_seq in Hx. apply elem_of_seq in Hy.
  apply noname_inj, wrap_inj_window in Heq; [lia|].
  unfold Int32.modulus in *. lia.
Qed.

(** A thread that runs its two steps back to back behaves as the
    sequential [GetOpName]. *)
Lemma uninterrupted_thread (prefix : string) (c : Z) :
  let '(t1, c1) := Naming.thread_step (Naming.AtFetchAdd prefix) c in
  let '(t2, c2) := Naming.thread_step t1 c1 in
  (Naming.result_of t2, c2) =
  (Some (fst (Naming.GetOpName prefix None c)),
   snd (Naming.GetOpName prefix None c)).
Proof. reflexivity. Qed.

(** ** The pipeline over any byteps/common *)

Section PipelineFacts.

Context {G E : Type} `{!Common G E}.

Implicit Types (w : World G E) (tensor input : NDArrayPtr) (nd : NDArray E).

Lemma set_op_count_same w : set_op_count (op_count w) w = w.
Proof. now destruct w. Qed.

(** [GetOpName] on the process state is the sequential [GetOpName] on
    the process-wide counter. *)
Lemma GetOpName_run (prefix : string) (name : option string) w :
  GetOpName prefix name w =
  Ret (fst (Naming.GetOpName prefix name (op_count w)))
      (set_op_count (snd (Naming.GetOpName prefix name (op_count w))) w).
Proof.
  destruct name as [user|]; cbn.
  - unfold ret. now rewrite set_op_count_same.
  - reflexivity.
Qed.

(** What one call of [byteps_mxnet_push_pull_async] on a valid tensor
    does, step by step. *)
Lemma push_pull_async_run tensor (name : option string) (version priority : Z)
    w nd :
  load tensor w = Some nd ->
  let tensor_name := fst (Naming.GetOpName "byteps" name (op_count w)) in
  let c := snd (Naming.GetOpName "byteps" name (op_count w)) in
  let ig :=
    IsTensorInitialized tensor_name (nd_size nd) (nd_device nd) (nd_dtype nd)
      (bps w) in
  let cg0 := GetContextFromName tensor_name (snd ig) in
  let g1 := if fst ig then snd ig else snd cg0 in
  let cg := GetContextFromName tensor_name g1 in
  let init_ops :=
    if fst ig then []
    else [mkOpr (init_async_fn (fst cg0) tensor tensor_name) (nd_ctx nd)
            [] [nd_var nd] kNormal 0 "BytePSInit"] in
  let ops :=
    init_ops ++
    [mkOpr (first_stage_async_fn (fst cg) tensor tensor_name version priority)
       (nd_ctx nd) [nd_var nd] [] kNormal 0 "BytePSFirstStage";
     mkOpr (second_stage_async_fn (fst cg) tensor tensor_name version priority)
       (nd_ctx nd) [] [nd_var nd] kNormal 0 "BytePSSecondStage"] in
  byteps_mxnet_push_pull_async tensor name version priority w =
  Ret 0
    (mkWorld c (engine w ++ ops) (heap w) (completions w) (snd cg)
       (scalings w ++
        [mkScaling (pred (length (engine w ++ ops))) tensor
           (NumWorkers (snd cg)) false])).
Proof.
  intros Hload. cbv zeta.
  unfold byteps_mxnet_push_pull_async, MX_API.
  unfold bind at 1 2. rewrite GetOpName_run.
  set (tensor_name := fst (Naming.GetOpName "byteps" name (op_count w))).
  set (c := snd (Naming.GetOpName "byteps" name (op_count w))).
  unfold bind at 1. unfold deref at 1.
  assert (Hl1 : load tensor (set_op_count c w) = Some nd)
    by (destruct tensor; exact Hload).
  rewrite Hl1.
  unfold bind at 1. cbn [bps set_op_count].
  destruct (IsTensorInitialized tensor_name (nd_size nd) (nd_device nd)
              (nd_dtype nd) (bps w)) as [b g0] eqn:Hinit.
  cbn [fst snd].
  destruct b; cbn [negb].
  - unfold bind, ret, PushAsync, modify, gets, div_assign, deref.
    cbn [bps set_bps set_op_count set_engine set_scalings engine heap
         completions op_count scalings].
    destruct (GetContextFromName tensor_name g0) as [ctx g] eqn:Hctx.
    cbn [fst snd bps set_bps set_op_count set_engine set_scalings engine heap
         completions op_count scalings].
    unfold bind, modify, gets, deref.
    cbn [bps set_bps set_op_count set_engine set_scalings engine heap
         completions op_count scalings].
    replace (load tensor _) with (Some nd) by (destruct tensor; exact (eq_sym Hload)).
    cbn [app]. rewrite <- !app_assoc. reflexivity.
  - unfold bind, ret, PushAsync, modify, gets, div_assign, deref.
    cbn [bps set_bps set_op_count set_engine set_scalings engine heap
         completions op_count scalings].
    destruct (GetContextFromName tensor_name g0) as [ctx0 g1] eqn:Hctx0.
    cbn [fst snd bps set_bps set_op_count set_engine set_scalings engine heap
         completions op_count scalings].
    destruct (GetContextFromName tensor_name g1) as [ctx g] eqn:Hctx.
    cbn [fst snd bps set_bps set_op_count set_engine set_scalings engine heap
         completions op_count scalings].
    unfold bind, modify, gets, deref.
    cbn [bps set_bps set_op_count set_engine set_scalings engine heap
         completions op_count scalings].
    replace (load tensor _) with (Some nd) by (destruct tensor; exact (eq_sym Hload)).
    cbn [app]. rewrite <- !app_assoc. reflexivity.
Qed.

(** [store_data] touches the heap only. *)
Lemma engine_store_data tensor (d : list E) w :
  engine (store_data tensor d w) = engine w.
Proof.
  unfold store_data.
  destruct tensor as [a|]; cbn [load]; [destruct (heap w !! a)|]; reflexivity.
Qed.

Lemma bps_store_data tensor (d : list E) w :
  bps (store_data tensor d w) = bps w.
Proof.
  unfold store_data.
  destruct tensor as [a|]; cbn [load]; [destruct (heap w !! a)|]; reflexivity.
Qed.


(** A stage run before the runtime is initialised throws the status of
    [CheckInitialized] and does nothing else. *)
Lemma stage_not_initialized (f : AsyncFn) (on_complete : Callback) w :
  ok (CheckInitialized (bps w)) = false ->
  call_async_fn f on_complete w = Throw (CheckInitialized (bps w)) w.
Proof.
  intros Hno.
  destruct f; cbn [call_async_fn];
    unfold DoInit, DoFirstStage, DoSecondStage, bind, gets, ThrowIfError;
    now rewrite Hno.
Qed.

(** Once an enqueue is reached the stage returns or throws. *)
Lemma tail_not_fatal (f : G -> Reply E * G) input
    (callback : Status -> World G E -> World G E) w :
  is_fatal ((r <- async_call f input callback ;; ThrowIfError r) w) = false.
Proof.
  unfold bind, async_call, ThrowIfError.
  destruct (f (bps w)) as [r g]. now destruct (ok (returned r)).
Qed.

(** The first stage, once the runtime check has passed and the tensor
    is there. *)
Lemma DoFirstStage_run (context : ContextRef) input (name : string)
    (version priority : Z) (on_complete : Callback) w nd :
  ok (CheckInitialized (bps w)) = true ->
  load input w = Some nd ->
  DoFirstStage context input name version priority on_complete w =
  if decide (nd_device nd <> CPU_DEVICE_ID) then
    match cpubuff (context_at context (bps w)) with
    | None => Fatal (name +:+ ": cpu buffer not initialized.") w
    | Some _ =>
        push_tail context input nd name version priority on_complete w
    end
  else push_tail context input nd name version priority on_complete w.
Proof.
  intros Hok Hload.
  unfold DoFirstStage, push_tail.
  unfold bind at 1 2 3, gets at 1, ThrowIfError at 1, deref at 1.
  rewrite Hok, Hload.
  destruct (decide (nd_device nd <> CPU_DEVICE_ID)) as [Hdev|Hdev];
    [|reflexivity].
  unfold bind at 1 2, gets, BPS_CHECK.
  destruct (cpubuff (context_at context (bps w))) as [b|]; reflexivity.
Qed.

(** The second stage, likewise. *)
Lemma DoSecondStage_run (context : ContextRef) input (name : string)
    (version priority : Z) (on_complete : Callback) w nd :
  ok (CheckInitialized (bps w)) = true ->
  load input w = Some nd ->
  DoSecondStage context input name version priority on_complete w =
  if decide (nd_device nd <> CPU_DEVICE_ID) then
    match cpubuff (context_at context (bps w)) with
    | None => Fatal (name +:+ ": cpu buffer not initialized.") w
    | Some _ =>
        pull_tail context input nd name version priority on_complete w
    end
  else pull_tail context input nd name version priority on_complete w.
Proof.
  intros Hok Hload.
  unfold DoSecondStage, pull_tail.
  unfold bind at 1 2 3, gets at 1, ThrowIfError at 1, deref at 1.
  rewrite Hok, Hload.
  destruct (decide (nd_device nd <> CPU_DEVICE_ID)) as [Hdev|Hdev];
    [|reflexivity].
  unfold bind at 1 2, gets, BPS_CHECK.
  destruct (cpubuff (context_at context (bps w))) as [b|]; reflexivity.
Qed.

(** A stage handed an invalid tensor, the runtime check passed. *)
Lemma stage_invalid_tensor (context : ContextRef) input (name : string)
    (version priority : Z) (on_complete : Callback) w :
  ok (CheckInitialized (bps w)) = true ->
  load input w = None ->
  DoFirstStage context input name version priority on_complete w = Undefined
  /\ DoSecondStage context input name version priority on_complete w
     = Undefined.
Proof.
  intros Hok Hload.
  unfold DoFirstStage, DoSecondStage, bind, gets, ThrowIfError, deref.
  now rewrite Hok, Hload.
Qed.

(** Both stages end in a failed check in exactly the same states, with
    the same message. *)
Lemma stages_fatal_alike (context : ContextRef) input (name : string)
    (version priority : Z) (on_complete : Callback) w (msg : string)
    (w' : World G E) :
  DoSecondStage context input name version priority on_complete w
    = Fatal msg w'
  <-> DoFirstStage context input name version priority on_complete w
    = Fatal msg w'.
Proof.
  destruct (ok (CheckInitialized (bps w))) eqn:Hok.
  - destruct (load input w) as [nd|] eqn:Hload.
    + rewrite (DoFirstStage_run _ _ _ _ _ _ _ _ Hok Hload),
        (DoSecondStage_run _ _ _ _ _ _ _ _ Hok Hload).
      assert (Hpush := tail_not_fatal
        (EnqueueTensorPush context nd name (nd_device nd) priority version)
        input (fun status => InvokeCompleteCallback on_complete status) w).
      assert (Hpull := tail_not_fatal
        (EnqueueTensorPull context nd name (nd_device nd) priority version)
        input (fun status => InvokeCompleteCallback on_complete status) w).
      fold (push_tail context input nd name version priority on_complete)
        in Hpush.
      fold (pull_tail context input nd name version priority on_complete)
        in Hpull.
      destruct (decide _); [destruct (cpubuff _)|];
        try reflexivity;
        split; intros Heq;
        first [ rewrite Heq in Hpull; discriminate Hpull
              | rewrite Heq in Hpush; discriminate Hpush ].
    + destruct (stage_invalid_tensor context input name version priority
                  on_complete w Hok Hload) as [-> ->].
      reflexivity.
  - rewrite (stage_not_initialized
               (second_stage_async_fn context input name version priority)
               on_complete w Hok : DoSecondStage _ _ _ _ _ _ _ = _).
    rewrite (stage_not_initialized
               (first_stage_async_fn context input name version priority)
               on_complete w Hok : DoFirstStage _ _ _ _ _ _ _ = _).
    reflexivity.
Qed.

(** What a call on a valid tensor pushes: the initialiser if the
    tensor is not initialised yet, then the push stage reading the
    tensor's variable, then the pull stage writing it; all three work
    on the tensor that was passed. *)
Lemma push_pull_async_pushes tensor (name : option string)
    (version priority : Z) w nd :
  load tensor w = Some nd ->
  exists (w' : World G E) (pre : list Opr) (push pull : Opr),
    byteps_mxnet_push_pull_async tensor name version priority w = Ret 0 w'
    /\ engine w' = engine w ++ pre ++ [push; pull]
    /\ map stage_of pre =
       (if fst (IsTensorInitialized
                  (fst (Naming.GetOpName "byteps" name (op_count w)))
                  (nd_size nd) (nd_device nd) (nd_dtype nd) (bps w))
        then [] else [Initializer])
    /\ Forall (fun o => const_vars o = [] /\ mutable_vars o = [nd_var nd]) pre
    /\ (stage_of push = Push /\ const_vars push = [nd_var nd]
        /\ mutable_vars push = [])
    /\ (stage_of pull = Pull /\ const_vars pull = []
        /\ mutable_vars pull = [nd_var nd])
    /\ Forall (fun o => tensor_of o = tensor) (pre ++ [push; pull]).
Proof.
  intros Hload.
  pose proof (push_pull_async_run tensor name version priority w nd Hload)
    as Hrun.
  cbv zeta in Hrun.
  eexists. eexists. eexists. eexists.
  split; [exact Hrun|].
  cbn [engine].
  split; [reflexivity|].
  destruct (fst (IsTensorInitialized _ _ _ _ _));
    repeat split; repeat constructor.
Qed.

(** Every operation a call pushes carries the name the call resolved
    and the tensor it was passed. *)
Lemma push_pull_async_names tensor (name : option string)
    (version priority rc : Z) w w' nd (i : nat) (o : Opr) :
  load tensor w = Some nd ->
  byteps_mxnet_push_pull_async tensor name version priority w = Ret rc w' ->
  (length (engine w) <= i)%nat ->
  engine w' !! i = Some o ->
  name_of o = fst (Naming.GetOpName "byteps" name (op_count w))
  /\ tensor_of o = tensor.
Proof.
  intros Hload Hret Hge Hi.
  pose proof (push_pull_async_run tensor name version priority w nd Hload)
    as Hrun.
  cbv zeta in Hrun. rewrite Hrun in Hret. injection Hret as _ <-.
  cbn [engine] in Hi. rewrite lookup_app_r in Hi by exact Hge.
  destruct (fst (IsTensorInitialized _ _ _ _ _));
    destruct (i - length (engine w))%nat as [|[|[|k]]];
    cbn in Hi; try discriminate Hi; injection Hi as <-; split; reflexivity.
Qed.

(** C3: for every call of [byteps_mxnet_push_pull_async] on a valid
    tensor, the initialisation task is pushed to the engine if and only
    if [IsTensorInitialized] returns false for the tensor's name, size,
    device and dtype; when it returns true the first operation pushed
    is the push stage, followed by the pull stage. *)
Theorem init_pushed_iff_not_initialized tensor (name : option string)
    (version priority : Z) w nd :
  load tensor w = Some nd ->
  exists (w' : World G E) (ops : list Opr),
    byteps_mxnet_push_pull_async tensor name version priority w = Ret 0 w'
    /\ engine w' = engine w ++ ops
    /\ map stage_of ops =
       (if fst (IsTensorInitialized
                  (fst (Naming.GetOpName "byteps" name (op_count w)))
                  (nd_size nd) (nd_device nd) (nd_dtype nd) (bps w))
        then [Push; Pull] else [Initializer; Push; Pull])
    /\ (In Initializer (map stage_of ops) <->
        fst (IsTensorInitialized
               (fst (Naming.GetOpName "byteps" name (op_count w)))
               (nd_size nd) (nd_device nd) (nd_dtype nd) (bps w)) = false).
Proof.
  intros Hload.
  destruct (push_pull_async_pushes tensor name version priority w nd Hload)
    as (w' & pre & push & pull & Hrun & Heng & Hpre & _ & Hpush & Hpull & _).
  exists w', (pre ++ [push; pull]).
  destruct Hpush as [Hpush _], Hpull as [Hpull _].
  assert (Hmap : map stage_of (pre ++ [push; pull]) =
                 map stage_of pre ++ [Push; Pull]).
  { rewrite map_app. cbn [map]. now rewrite Hpush, Hpull. }
  rewrite Hmap, Hpre.
  split; [exact Hrun|]. split; [exact Heng|].
  destruct (fst (IsTensorInitialized _ _ _ _ _)); cbn [app In].
  - split; [reflexivity|].
    split; [intros [H|[H|[]]]; discriminate H | discriminate].
  - split; [reflexivity|]. split; [reflexivity | now left].
Qed.

(** C8: in every call of [byteps_mxnet_push_pull_async] on a valid
    tensor, the push-stage task is pushed with the tensor's variable as
    its only read dependency and no write dependency, and right after
    it the pull-stage task with no read dependency and the tensor's
    variable as its only write dependency. *)
Theorem stage_dependencies tensor (name : option string)
    (version priority : Z) w nd :
  load tensor w = Some nd ->
  exists (w' : World G E) (pre : list Opr) (push pull : Opr),
    byteps_mxnet_push_pull_async tensor name version priority w = Ret 0 w'
    /\ engine w' = engine w ++ pre ++ [push; pull]
    /\ Forall (fun o => stage_of o = Initializer) pre
    /\ stage_of push = Push
    /\ const_vars push = [nd_var nd] /\ mutable_vars push = []
    /\ stage_of pull = Pull
    /\ const_vars pull = [] /\ mutable_vars pull = [nd_var nd].
Proof.
  intros Hload.
  destruct (push_pull_async_pushes tensor name version priority w nd Hload)
    as (w' & pre & push & pull & Hrun & Heng & Hpre & _ & Hpush & Hpull & _).
  exists w', pre, push, pull.
  destruct Hpush as (? & ? & ?), Hpull as (? & ? & ?).
  repeat split; try assumption.
  destruct (fst (IsTensorInitialized _ _ _ _ _)).
  - destruct pre; [constructor | discriminate Hpre].
  - destruct pre as [|o [|o' pre]]; try discriminate Hpre.
    injection Hpre as Ho. now repeat constructor.
Qed.

(** C2, as amended: [byteps_mxnet_push_pull_async] checks neither
    precondition before it pushes.  In every state, whatever
    [CheckInitialized] would answer (so also while the runtime is not
    initialised), a call on a valid tensor returns 0 having pushed the
    push stage and right behind it the pull stage, preceded by the
    initialiser exactly when the tensor is not initialised; the runtime
    check is the first thing each pushed task does when the engine
    runs it, and a task run while [CheckInitialized] reports an error
    throws that status without calling into the aggregation service or
    the completion callback.  A null tensor handle is dereferenced
    unchecked, in every state. *)
Theorem checks_run_inside_stages (name : option string)
    (version priority : Z) w :
  byteps_mxnet_push_pull_async None name version priority w = Undefined
  /\ (forall tensor nd,
        load tensor w = Some nd ->
        exists (w' : World G E) (pre : list Opr) (push pull : Opr),
          byteps_mxnet_push_pull_async tensor name version priority w
            = Ret 0 w'
          /\ engine w' = engine w ++ pre ++ [push; pull]
          /\ map stage_of pre =
             (if fst (IsTensorInitialized
                        (fst (Naming.GetOpName "byteps" name (op_count w)))
                        (nd_size nd) (nd_device nd) (nd_dtype nd) (bps w))
              then [] else [Initializer])
          /\ stage_of push = Push /\ stage_of pull = Pull
          /\ Forall (fun o => tensor_of o = tensor) (pre ++ [push; pull]))
  /\ (forall (f : AsyncFn) (on_complete : Callback),
        ok (CheckInitialized (bps w)) = false ->
        call_async_fn f on_complete w = Throw (CheckInitialized (bps w)) w).
Proof.
  split; [|split].
  - unfold byteps_mxnet_push_pull_async, MX_API, bind.
    now rewrite GetOpName_run.
  - intros tensor nd Hload.
    destruct (push_pull_async_pushes tensor name version priority w nd Hload)
      as (w' & pre & push & pull & Hrun & Heng & Hpre & _ & Hpush & Hpull
          & Hten).
    exists w', pre, push, pull.
    destruct Hpush as [Hpush _], Hpull as [Hpull _].
    now repeat split.
  - intros f on_complete Hno. now apply stage_not_initialized.
Qed.

(** The call leaves the tensor's data alone and issues the division
    by the worker count behind the last operation it pushed, whatever
    else happens. *)
Lemma push_pull_async_issues tensor (name : option string)
    (version priority : Z) w nd :
  load tensor w = Some nd ->
  exists w' : World G E,
    byteps_mxnet_push_pull_async tensor name version priority w = Ret 0 w'
    /\ load tensor w' = Some nd
    /\ scalings w' =
       scalings w ++
       [mkScaling (pred (length (engine w'))) tensor (NumWorkers (bps w'))
          false].
Proof.
  intros Hload.
  pose proof (push_pull_async_run tensor name version priority w nd Hload)
    as Hrun.
  cbv zeta in Hrun.
  eexists. split; [exact Hrun|].
  split; [destruct tensor; exact Hload | reflexivity].
Qed.







(** C4, as amended: for every run of [DoFirstStage] that has passed
    its runtime check ([CheckInitialized] is Ok) on a tensor that
    resides off the host, the stage ends in a failed [BPS_CHECK], not
    in a status, when the context has no staging buffer; when the
    buffer is there the stage does not end that way and goes on to
    [EnqueueTensorPush]. *)
Theorem first_stage_staging_check (context : ContextRef) input
    (name : string) (version priority : Z) (on_complete : Callback) w nd :
  ok (CheckInitialized (bps w)) = true ->
  load input w = Some nd ->
  nd_device nd <> CPU_DEVICE_ID ->
  match cpubuff (context_at context (bps w)) with
  | None =>
      DoFirstStage context input name version priority on_complete w =
      Fatal (name +:+ ": cpu buffer not initialized.") w
  | Some _ =>
      DoFirstStage context input name version priority on_complete w =
      (enqueue_result <-
         async_call
           (EnqueueTensorPush context nd name (nd_device nd) priority version)
           input (fun status => InvokeCompleteCallback on_complete status) ;;
       ThrowIfError enqueue_result) w
      /\ is_fatal
           (DoFirstStage context input name version priority on_complete w)
         = false
  end.
Proof.
  intros Hok Hload Hdev.
  rewrite (DoFirstStage_run _ _ _ _ _ _ _ _ Hok Hload).
  destruct (decide (nd_device nd <> CPU_DEVICE_ID)); [|contradiction].
  destruct (cpubuff (context_at context (bps w))); [|reflexivity].
  split; [reflexivity | apply tail_not_fatal].
Qed.

(** C10, as amended: [DoSecondStage] makes the same staging-buffer
    check as [DoFirstStage]: the two end in a failed [BPS_CHECK] in
    exactly the same states and with the same message; and for every
    run of [DoSecondStage] that has passed its runtime check
    ([CheckInitialized] is Ok) on a tensor that resides off the host,
    the stage fails that check before [EnqueueTensorPull] when the
    context has no staging buffer, and reaches [EnqueueTensorPull] when
    it has one. *)
Theorem second_stage_staging_check (context : ContextRef) input
    (name : string) (version priority : Z) (on_complete : Callback) w nd :
  ok (CheckInitialized (bps w)) = true ->
  load input w = Some nd ->
  nd_device nd <> CPU_DEVICE_ID ->
  (forall (msg : string) (w' : World G E),
     DoSecondStage context input name version priority on_complete w
       = Fatal msg w'
     <-> DoFirstStage context input name version priority on_complete w
       = Fatal msg w')
  /\ match cpubuff (context_at context (bps w)) with
     | None =>
         DoSecondStage context input name version priority on_complete w =
         Fatal (name +:+ ": cpu buffer not initialized.") w
     | Some _ =>
         DoSecondStage context input name version priority on_complete w =
         (enqueue_result <-
            async_call
              (EnqueueTensorPull context nd name (nd_device nd) priority
                 version)
              input (fun status => InvokeCompleteCallback on_complete status) ;;
          ThrowIfError enqueue_result) w
         /\ is_fatal
              (DoSecondStage context input name version priority on_complete
                 w)
            = false
     end.
Proof.
  intros Hok Hload Hdev. split.
  - intros msg w'. apply stages_fatal_alike.
  - rewrite (DoSecondStage_run _ _ _ _ _ _ _ _ Hok Hload).
    destruct (decide (nd_device nd <> CPU_DEVICE_ID)); [|contradiction].
    destruct (cpubuff (context_at context (bps w))); [|reflexivity].
    split; [reflexivity | apply tail_not_fatal].
Qed.

(** C5, as amended: for every prefix and every optional user name,
    [GetOpName] returns [prefix + "." + userName] when a user name is
    supplied, leaving the counter alone, and otherwise returns
    [prefix + ".noname." + N], where [N] is the value, after this
    call's increment, of the single 32-bit counter of the process,
    which starts at zero; the increment adds one as long as the counter
    is below 2147483647, and from 2147483647 it wraps around to
    -2147483648. *)
Theorem GetOpName_counter (prefix : string) (name : option string) w :
  Int32.in_range (op_count w) ->
  Naming.op_count_init = 0
  /\ match name with
     | Some user => GetOpName prefix name w = Ret (prefix +:+ "." +:+ user) w
     | None =>
         exists n : Z,
           GetOpName prefix name w =
             Ret (prefix +:+ ".noname." +:+ to_string n) (set_op_count n w)
           /\ Int32.in_range n
           /\ n = (if (op_count w <? Int32.max_signed)%Z
                   then op_count w + 1 else Int32.min_signed)
     end.
Proof.
  intros Hc. split; [reflexivity|].
  rewrite GetOpName_run.
  destruct name as [user|]; cbn [Naming.GetOpName fst snd].
  - now rewrite set_op_count_same.
  - exists (Naming.fetch_add_1 (op_count w)).
    split; [reflexivity|]. split; [apply wrap_in_range|].
    destruct (Z.ltb_spec (op_count w) Int32.max_signed) as [Hlt|Hge].
    + now apply fetch_add_1_below_max.
    + assert (Heq : op_count w = Int32.max_signed)
        by (unfold Int32.in_range in Hc; lia).
      rewrite Heq. apply fetch_add_1_at_max.
Qed.

End PipelineFacts.

(** C7: for every completion callback and every status,
    [InvokeCompleteCallback] invokes the callback exactly once; it
    passes no error exactly when the status is Ok, and otherwise an
    error whose message is the status's reason, unchanged. *)
Theorem InvokeCompleteCallback_bridge (A : Type)
    (on_complete : option dmlc_Error -> A) (status : Status)
    (log : list (option dmlc_Error)) :
  exists arg : option dmlc_Error,
    InvokeCompleteCallback on_complete status = on_complete arg
    /\ InvokeCompleteCallback recording_callback status log = log ++ [arg]
    /\ (arg = None <-> ok status = true)
    /\ (ok status = false -> arg = Some (Error (reason status)))
    /\ (forall e : dmlc_Error, arg = Some e -> what e = reason status).
Proof.
  unfold InvokeCompleteCallback, recording_callback.
  destruct (ok status) eqn:Hok.
  - exists None. repeat split; try reflexivity; discriminate.
  - exists (Some (Error (reason status))).
    repeat split; try reflexivity; try discriminate.
    intros e [= <-]. reflexivity.
Qed.

(** ** Ordering under the engine's contract *)

Lemma mem_nat_In (i : nat) (l : list nat) :
  EngineContract.mem_nat i l = true <-> In i l.
Proof.
  unfold EngineContract.mem_nat. rewrite existsb_exists. split.
  - intros (x & Hin & Heq). apply Nat.eqb_eq in Heq. now subst.
  - intros Hin. exists i. split; [exact Hin | apply Nat.eqb_refl].
Qed.

Lemma shares_same (v : Var) (vs : list Var) :
  EngineContract.shares [v] (v :: vs) = true.
Proof.
  unfold EngineContract.shares, EngineContract.mem_var. cbn.
  now rewrite N.eqb_refl.
Qed.

(** An operation that starts has seen every earlier operation it waits
    for complete: either before the events at hand, or among them. *)
Lemma honours_start_waits (ops : list Opr) (pre post : list EngineContract.Event)
    (j i : nat) (oi oj : Opr) :
  forall started completed : list nat,
  EngineContract.honours ops started completed
    (pre ++ EngineContract.Start j :: post) = true ->
  ops !! i = Some oi ->
  ops !! j = Some oj ->
  (i < j)%nat ->
  EngineContract.waits_for oj oi = true ->
  In i completed \/ In (EngineContract.Complete i) pre.
Proof.
  induction pre as [|e pre IH]; intros started completed Hh Hi Hj Hlt Hw.
  - left. cbn [app EngineContract.honours] in Hh.
    apply andb_prop in Hh as [Hh _]. apply andb_prop in Hh as [_ Hready].
    unfold EngineContract.ready in Hready. rewrite Hj in Hready.
    rewrite forallb_forall in Hready.
    specialize (Hready i ltac:(apply in_seq; lia)).
    rewrite Hi, Hw in Hready. now apply mem_nat_In.
  - destruct e as [k|k]; cbn [app EngineContract.honours] in Hh.
    + apply andb_prop in Hh as [_ Hh].
      destruct (IH _ _ Hh Hi Hj Hlt Hw) as [Hc|Hc];
        [now left | right; now right].
    + apply andb_prop in Hh as [_ Hh].
      destruct (IH _ _ Hh Hi Hj Hlt Hw) as [[Hc|Hc]|Hc].
      * subst k. right. now left.
      * now left.
      * right. now right.
Qed.

(** In an execution from the start, an operation starts only after
    every earlier operation it waits for has signalled completion. *)
Lemma execution_order (ops : list Opr) (tr : list EngineContract.Event)
    (i j : nat) (oi oj : Opr) :
  EngineContract.execution ops tr = true ->
  ops !! i = Some oi ->
  ops !! j = Some oj ->
  (i < j)%nat ->
  EngineContract.waits_for oj oi = true ->
  EngineContract.precedes (EngineContract.Complete i)
    (EngineContract.Start j) tr.
Proof.
  intros Hex Hi Hj Hlt Hw pre post ->.
  destruct (honours_start_waits ops pre post j i oi oj [] [] Hex Hi Hj Hlt Hw)
    as [[]|Hin].
  exact Hin.
Qed.

Section Ordering.

Context {G E : Type} `{!Common G E}.

(** C9, as amended: for every tensor passed to
    [byteps_mxnet_push_pull_async], the operations the call pushes all
    carry the name the call resolved and the tensor it was passed, and
    in every execution of the engine that honours the declared
    dependencies the pull stage of that call starts only after its push
    stage has signalled completion, and the push stage only after the
    initialiser of that call, when there is one, has signalled
    completion: Initializer, then Push, then Pull.  The order comes
    from the engine variable of the tensor, which the stages of one
    call share; the name takes no part in it. *)
Theorem pull_starts_after_push (tensor : NDArrayPtr) (name : option string)
    (version priority : Z) (w w' : World G E) (nd : NDArray E) (rc : Z)
    (tr : list EngineContract.Event) :
  load tensor w = Some nd ->
  byteps_mxnet_push_pull_async tensor name version priority w = Ret rc w' ->
  EngineContract.execution (engine w') tr = true ->
  exists (p : nat) (push pull : Opr),
    (length (engine w) <= p)%nat
    /\ engine w' !! p = Some push
    /\ engine w' !! S p = Some pull
    /\ (stage_of push = Push /\ tensor_of push = tensor
        /\ name_of push = fst (Naming.GetOpName "byteps" name (op_count w)))
    /\ (stage_of pull = Pull /\ tensor_of pull = tensor
        /\ name_of pull = fst (Naming.GetOpName "byteps" name (op_count w)))
    /\ EngineContract.precedes (EngineContract.Complete p)
         (EngineContract.Start (S p)) tr
    /\ forall (i : nat) (init : Opr),
         (length (engine w) <= i)%nat ->
         engine w' !! i = Some init ->
         stage_of init = Initializer ->
         tensor_of init = tensor
         /\ name_of init = fst (Naming.GetOpName "byteps" name (op_count w))
         /\ EngineContract.precedes (EngineContract.Complete i)
              (EngineContract.Start p) tr.
Proof.
  intros Hload Hret Hex.
  destruct (push_pull_async_pushes tensor name version priority w nd Hload)
    as (w0 & pre & push & pull & Hret0 & Heng & _ & Hpre & Hpush & Hpull
        & Hten).
  rewrite Hret in Hret0. injection Hret0 as -> <-.
  destruct Hpush as (Hps & Hpc & Hpm), Hpull as (Hls & Hlc & Hlm).
  apply Forall_app in Hten as [_ Hten].
  apply Forall_cons in Hten as [Htp Hten].
  apply Forall_cons in Hten as [Htl _].
  assert (Hp : engine w' !! (length (engine w ++ pre)) = Some push).
  { rewrite Heng, app_assoc. now apply list_lookup_middle. }
  assert (Hl : engine w' !! S (length (engine w ++ pre)) = Some pull).
  { rewrite Heng.
    replace (engine w ++ pre ++ [push; pull])
      with ((engine w ++ pre ++ [push]) ++ [pull])
      by now rewrite <- !app_assoc.
    apply list_lookup_middle. rewrite !length_app. cbn. lia. }
  exists (length (engine w ++ pre)), push, pull.
  split; [rewrite length_app; lia|].
  split; [exact Hp|]. split; [exact Hl|].
  assert (Hnp : name_of push
                = fst (Naming.GetOpName "byteps" name (op_count w))).
  { apply (push_pull_async_names tensor name version priority 0 w w' nd
             (length (engine w ++ pre)) push Hload Hret);
      [rewrite length_app; lia | exact Hp]. }
  assert (Hnl : name_of pull
                = fst (Naming.GetOpName "byteps" name (op_count w))).
  { apply (push_pull_async_names tensor name version priority 0 w w' nd
             (S (length (engine w ++ pre))) pull Hload Hret);
      [rewrite length_app; lia | exact Hl]. }
  split; [now repeat split|]. split; [now repeat split|]. split.
  - apply (execution_order _ _ _ _ push pull Hex Hp Hl); [lia|].
    unfold EngineContract.waits_for. rewrite Hpc, Hlm.
    rewrite (shares_same (nd_var nd) []). apply orb_true_r.
  - intros i init Hge Hi Hinit.
    destruct (push_pull_async_names tensor name version priority 0 w w' nd
                i init Hload Hret Hge Hi) as [Hni Hti].
    split; [exact Hti|]. split; [exact Hni|].
    assert (Hin : pre !! (i - length (engine w))%nat = Some init
                  /\ (i < length (engine w ++ pre))%nat).
    { rewrite Heng in Hi. rewrite lookup_app_r in Hi by lia.
      destruct (decide (i - length (engine w) < length pre)%nat) as [Hlt|Hnlt].
      - rewrite lookup_app_l in Hi by lia. split; [exact Hi|].
        rewrite length_app. lia.
      - rewrite lookup_app_r in Hi by lia.
        destruct (i - length (engine w) - length pre)%nat as [|[|k]];
          cbn in Hi; try discriminate Hi;
          injection Hi as <-; congruence. }
    destruct Hin as [Hin Hlt].
    apply (execution_order _ _ _ _ init push Hex Hi Hp Hlt).
    rewrite Forall_lookup in Hpre. destruct (Hpre _ _ Hin) as [_ Him].
    unfold EngineContract.waits_for. rewrite Him, Hpc, Hpm. cbn [app].
    now rewrite (shares_same (nd_var nd) []).
Qed.

End Ordering.

(** ** Stages of one tensor across calls *)

Section ReachFacts.

Context {G E : Type} `{!Common G E}.

Implicit Types (w : World G E) (p q : NDArrayPtr).

(** Writing a tensor's buffer leaves every tensor its variable. *)
Lemma tensor_var_store_data p q (d : list E) w :
  tensor_var p (store_data q d w) = tensor_var p w.
Proof.
  unfold tensor_var, store_data.
  destruct q as [a|]; [|reflexivity].
  cbn [load]. destruct (heap w !! a) as [nd|] eqn:Ha; [|reflexivity].
  destruct p as [b|]; [|reflexivity].
  cbn [load heap set_heap].
  destruct (decide (a = b)) as [<-|Hne].
  - rewrite lookup_insert_eq, Ha. reflexivity.
  - now rewrite lookup_insert_ne.
Qed.

(** So does a call of the entry point, which also keeps what was in
    the queue. *)
Lemma call_keeps_vars tensor (name : option string) (version priority rc : Z)
    w (w' : World G E) p :
  byteps_mxnet_push_pull_async tensor name version priority w = Ret rc w' ->
  tensor_var p w' = tensor_var p w
  /\ exists ops : list Opr,
       engine w' = engine w ++ ops
       /\ Forall
            (fun o => tensor_of o = tensor
                      /\ exists v, tensor_var tensor w = Some v
                                   /\ declared_on v o) ops.
Proof.
  intros Hret.
  destruct (load tensor w) as [nd|] eqn:Hload.
  - pose proof (push_pull_async_run tensor name version priority w nd Hload)
      as Hrun.
    cbv zeta in Hrun. rewrite Hrun in Hret. injection Hret as _ <-.
    split.
    + unfold tensor_var. now destruct p.
    + cbn [engine]. eexists.
      split; [reflexivity|].
      assert (Hv : tensor_var tensor w = Some (nd_var nd))
        by (unfold tensor_var; now rewrite Hload).
      destruct (fst (IsTensorInitialized _ _ _ _ _)); cbn [app];
        repeat constructor; exists (nd_var nd); now repeat split.
  - exfalso.
    unfold byteps_mxnet_push_pull_async, MX_API in Hret.
    unfold bind at 1 2 in Hret. rewrite GetOpName_run in Hret.
    unfold bind at 1, deref at 1 in Hret.
    replace (load tensor _) with (@None (NDArray E)) in Hret
      by (destruct tensor; exact (eq_sym Hload)).
    discriminate Hret.
Qed.

(** The callback of the engine touches the completions only. *)
Lemma bridge_keeps (i : nat) (s : Status) w p :
  engine (InvokeCompleteCallback (engine_on_complete i) s w) = engine w
  /\ tensor_var p (InvokeCompleteCallback (engine_on_complete i) s w)
     = tensor_var p w.
Proof.
  unfold InvokeCompleteCallback, engine_on_complete.
  destruct (ok s); split; reflexivity || (now destruct p).
Qed.

(** A call into byteps/common on behalf of operation [i] keeps the
    queue and the variables. *)
Lemma async_call_keeps (f : G -> Reply E * G) input (i : nat) w p :
  exists (st : Status) (w' : World G E),
    async_call f input
      (fun status => InvokeCompleteCallback (engine_on_complete i) status) w
    = Ret st w'
    /\ engine w' = engine w
    /\ tensor_var p w' = tensor_var p w.
Proof.
  unfold async_call. destruct (f (bps w)) as [r g].
  eexists. eexists. split; [reflexivity|].
  assert (Hbase : forall w0 : World G E,
            engine w0 = engine w -> tensor_var p w0 = tensor_var p w ->
            engine (match delivered r with
                    | Some s =>
                        InvokeCompleteCallback (engine_on_complete i) s w0
                    | None => w0
                    end) = engine w
            /\ tensor_var p
                 (match delivered r with
                  | Some s =>
                      InvokeCompleteCallback (engine_on_complete i) s w0
                  | None => w0
                  end) = tensor_var p w).
  { intros w0 He Hv. destruct (delivered r) as [s|]; [|now split].
    destruct (bridge_keeps i s w0 p) as [-> ->]. now split. }
  apply Hbase; destruct (written r) as [d|].
  - now rewrite engine_store_data.
  - reflexivity.
  - rewrite tensor_var_store_data. unfold tensor_var. now destruct p.
  - unfold tensor_var. now destruct p.
Qed.

(** Enqueue, then [ThrowIfError]: whatever the end, the queue and the
    variables are kept. *)
Lemma tail_keeps (f : G -> Reply E * G) input (i : nat) w (w' : World G E) p :
  final
    ((r <- async_call f input
             (fun status =>
                InvokeCompleteCallback (engine_on_complete i) status) ;;
      ThrowIfError r) w) = Some w' ->
  engine w' = engine w /\ tensor_var p w' = tensor_var p w.
Proof.
  unfold bind.
  destruct (async_call_keeps f input i w p) as (st & w0 & -> & He & Hv).
  unfold ThrowIfError. destruct (ok st); cbn [final];
    intros [= <-]; now split.
Qed.

(** Running a pushed operation keeps the queue and the variables. *)
Lemma run_opr_keeps (i : nat) w (w' : World G E) p :
  final (run_opr i w) = Some w' ->
  engine w' = engine w /\ tensor_var p w' = tensor_var p w.
Proof.
  unfold run_opr. destruct (engine w !! i) as [o|];
    [|cbn [final]; intros [= <-]; now split].
  destruct (ok (CheckInitialized (bps w))) eqn:Hok.
  - destruct (exec_fun o) as [c t n|c t n v pr|c t n v pr];
      cbn [call_async_fn].
    + unfold DoInit. unfold bind at 1 2 3, gets at 1, ThrowIfError at 1,
        deref at 1.
      rewrite Hok. destruct (load t w) as [nd|];
        [apply tail_keeps | discriminate].
    + destruct (load t w) as [nd|] eqn:Hload.
      * rewrite (DoFirstStage_run _ _ _ _ _ _ _ _ Hok Hload).
        unfold push_tail.
        destruct (decide _); [destruct (cpubuff _)|];
          try apply tail_keeps.
        cbn [final]. intros [= <-]. now split.
      * destruct (stage_invalid_tensor c t n v pr (engine_on_complete i) w
                    Hok Hload) as [-> _].
        discriminate.
    + destruct (load t w) as [nd|] eqn:Hload.
      * rewrite (DoSecondStage_run _ _ _ _ _ _ _ _ Hok Hload).
        unfold pull_tail.
        destruct (decide _); [destruct (cpubuff _)|];
          try apply tail_keeps.
        cbn [final]. intros [= <-]. now split.
      * destruct (stage_invalid_tensor c t n v pr (engine_on_complete i) w
                    Hok Hload) as [_ ->].
        discriminate.
  - rewrite (stage_not_initialized _ _ _ Hok). cbn [final].
    intros [= <-]. now split.
Qed.

(** Carrying out a division keeps the queue and the variables. *)
Lemma run_scaling_keeps (k : nat) w (w' : World G E) p :
  final (run_scaling k w) = Some w' ->
  engine w' = engine w /\ tensor_var p w' = tensor_var p w.
Proof.
  unfold run_scaling.
  destruct (scalings w !! k) as [sc|];
    [|cbn [final]; intros [= <-]; now split].
  destruct (negb (carried_out sc) && succeeded (waits_on sc) w);
    [|cbn [final]; intros [= <-]; now split].
  unfold bind, deref, modify.
  destruct (load (target sc) w) as [nd|]; [|discriminate].
  cbn [final]. intros [= <-]. cbn [engine set_scalings].
  split; [apply engine_store_data|].
  rewrite <- (tensor_var_store_data p (target sc)
                (map (fun x => div_scalar x (divisor sc)) (nd_data nd)) w).
  unfold tensor_var. now destruct p.
Qed.

(** In a reachable state every operation in the queue declares the
    variable of its tensor. *)
Lemma reachable_well_declared w : reachable w -> well_declared w.
Proof.
  induction 1 as [w Hnil | w w' tensor name version priority rc _ IH Hret
                 | w w' i _ IH Hrun | w w' k _ IH Hrun];
    unfold well_declared in *.
  - rewrite Hnil. constructor.
  - destruct (call_keeps_vars tensor name version priority rc w w' None Hret)
      as [_ (ops & -> & Hops)].
    apply Forall_app. split.
    + eapply Forall_impl; [exact IH|]. intros o (v & Hv & Hd).
      exists v. split; [|exact Hd].
      now destruct (call_keeps_vars tensor name version priority rc w w'
                      (tensor_of o) Hret) as [-> _].
    + eapply Forall_impl; [exact Hops|]. intros o (-> & v & Hv & Hd).
      exists v. split; [|exact Hd].
      now destruct (call_keeps_vars tensor name version priority rc w w'
                      tensor Hret) as [-> _].
  - destruct (run_opr_keeps i w w' None Hrun) as [-> _].
    eapply Forall_impl; [exact IH|]. intros o (v & Hv & Hd).
    exists v. split; [|exact Hd].
    now destruct (run_opr_keeps i w w' (tensor_of o) Hrun) as [_ ->].
  - destruct (run_scaling_keeps k w w' None Hrun) as [-> _].
    eapply Forall_impl; [exact IH|]. intros o (v & Hv & Hd).
    exists v. split; [|exact Hd].
    now destruct (run_scaling_keeps k w w' (tensor_of o) Hrun) as [_ ->].
Qed.

(** Two stages declared on one variable wait for each other unless
    both are push stages. *)
Lemma declared_on_waits (v : Var) (earlier later : Opr) :
  declared_on v earlier ->
  declared_on v later ->
  stage_of earlier <> Push \/ stage_of later <> Push ->
  EngineContract.waits_for later earlier = true.
Proof.
  unfold declared_on, EngineContract.waits_for.
  intros He Hl Hnot.
  destruct (stage_of earlier), (stage_of later);
    destruct He as [-> ->], Hl as [-> ->]; cbn [app];
    rewrite ?(shares_same v []), ?orb_true_r;
    try reflexivity.
  destruct Hnot as [Hn|Hn]; now contradiction Hn.
Qed.

(** X14: across any number of calls: of two stages pushed for the same
    tensor, the later one starts only after the earlier one has
    signalled completion, unless both are push stages (two readers).
    In particular every push stage waits for the pull stage of the
    call before, and every pull stage for all that was pushed before
    it. *)
Lemma stages_of_one_tensor_ordered w (tr : list EngineContract.Event)
    (i j : nat) (oi oj : Opr) :
  reachable w ->
  EngineContract.execution (engine w) tr = true ->
  engine w !! i = Some oi ->
  engine w !! j = Some oj ->
  (i < j)%nat ->
  tensor_of oi = tensor_of oj ->
  stage_of oi <> Push \/ stage_of oj <> Push ->
  EngineContract.precedes (EngineContract.Complete i)
    (EngineContract.Start j) tr.
Proof.
  intros Hreach Hex Hi Hj Hlt Hsame Hnot.
  apply reachable_well_declared in Hreach. unfold well_declared in Hreach.
  rewrite Forall_lookup in Hreach.
  destruct (Hreach _ _ Hi) as (v & Hv & Hdi).
  destruct (Hreach _ _ Hj) as (v' & Hv' & Hdj).
  rewrite Hsame, Hv' in Hv. injection Hv as ->.
  apply (execution_order _ _ _ _ oi oj Hex Hi Hj Hlt).
  now apply (declared_on_waits v).
Qed.

End ReachFacts.

(** ** The pipeline over the stand-in *)

(** C6: two concurrent anonymous requests can receive the same name.
    Both threads run line 39 before either runs line 40, so both read
    the counter at 2. *)
Theorem concurrent_anonymous_names_collide :
  Naming.run_schedule [0; 1; 0; 1]%nat
    [Naming.AtFetchAdd "byteps"; Naming.AtFetchAdd "byteps"]
    Naming.op_count_init
  = ([Naming.Returned "byteps.noname.2"; Naming.Returned "byteps.noname.2"],
     2).
Proof. reflexivity. Qed.

(** The same two requests, one after the other, get different
    names. *)
Lemma sequential_anonymous_names_differ :
  Naming.run_schedule [0; 0; 1; 1]%nat
    [Naming.AtFetchAdd "byteps"; Naming.AtFetchAdd "byteps"]
    Naming.op_count_init
  = ([Naming.Returned "byteps.noname.1"; Naming.Returned "byteps.noname.2"],
     2).
Proof. reflexivity. Qed.

(** The counter reaches the largest [int] after that many anonymous
    requests. *)
Lemma counter_reaches_max (prefix : string) :
  snd (Naming.anonymous_calls prefix (Z.to_nat Int32.max_signed)
         Naming.op_count_init)
  = Int32.max_signed.
Proof.
  rewrite anonymous_calls_counter.
  - rewrite Z2Nat.id by (unfold Int32.max_signed; lia).
    apply wrap_small. unfold Int32.in_range, Int32.min_signed,
      Int32.max_signed. lia.
  - unfold Int32.in_range, Naming.op_count_init, Int32.min_signed,
      Int32.max_signed. lia.
Qed.

(** C5, counterexample: at 2147483647 the counter does not increase.
    The next anonymous request is named after -2147483648, which is
    where the counter then stands. *)
Lemma counter_wraps_at_max :
  Int32.in_range Int32.max_signed
  /\ GetOpName "byteps" None
       (set_op_count Int32.max_signed (Sim.boot Sim.service))
     = Ret "byteps.noname.-2147483648"
         (set_op_count Int32.min_signed (Sim.boot Sim.service))
  /\ Int32.min_signed < Int32.max_signed.
Proof.
  split; [|split].
  - unfold Int32.in_range, Int32.min_signed, Int32.max_signed. lia.
  - reflexivity.
  - reflexivity.
Qed.

Lemma GetOpName_counter_witness :
  exists n : Z,
    GetOpName "byteps" None (Sim.boot Sim.service)
    = Ret ("byteps.noname." +:+ to_string n)
        (set_op_count n (Sim.boot Sim.service))
    /\ n = 1.
Proof.
  assert (Hc : Int32.in_range (op_count (Sim.boot Sim.service))).
  { split; vm_compute; discriminate. }
  destruct (GetOpName_counter "byteps" None (Sim.boot Sim.service) Hc)
    as [_ (n & Hrun & _ & Hn)].
  exists n. split; [exact Hrun | exact Hn].
Defined.



(** C2, counterexample: the runtime is not initialised, and the call
    on the host tensor returns 0 with the initialiser, the push stage
    and the pull stage in the engine's queue. *)
Lemma tasks_pushed_before_runtime_ready :
  ok (CheckInitialized (bps (Sim.boot Sim.not_ready))) = false
  /\ byteps_mxnet_push_pull_async (Some 1%N) (Some "grad") 0 0
       (Sim.boot Sim.not_ready)
     = Ret 0 (Sim.synced Sim.not_ready 1 (Some "grad"))
  /\ Sim.stages_after
       (byteps_mxnet_push_pull_async (Some 1%N) (Some "grad") 0 0
          (Sim.boot Sim.not_ready))
     = Some [Initializer; Push; Pull].
Proof. repeat split; reflexivity. Qed.

Lemma checks_run_inside_stages_witness :
  (exists w' : World Sim.State Z,
     byteps_mxnet_push_pull_async (Some 1%N) (Some "grad") 0 0
       (Sim.boot Sim.not_ready) = Ret 0 w'
     /\ map stage_of (engine w') = [Initializer; Push; Pull])
  /\ call_async_fn
       (first_stage_async_fn "byteps.grad" (Some 1%N) "byteps.grad" 0 0)
       (engine_on_complete 1) (Sim.boot Sim.not_ready)
     = Throw (StatusError "NotInitialized") (Sim.boot Sim.not_ready)
  /\ byteps_mxnet_push_pull_async None (Some "grad") 0 0
       (Sim.boot Sim.not_ready) = Undefined.
Proof.
  assert (Hno : ok (CheckInitialized (bps (Sim.boot Sim.not_ready))) = false)
    by reflexivity.
  destruct (checks_run_inside_stages (Some "grad") 0 0
              (Sim.boot Sim.not_ready))
    as [Hnull [Hpush Hthrow]].
  destruct (Hpush (Some 1%N) Sim.host_tensor eq_refl)
    as (w' & pre & push & pull & Hret & Heng & Hpre & Hps & Hpl & _).
  split; [|split].
  - exists w'. split; [exact Hret|].
    rewrite Heng, !map_app. cbn [map]. rewrite Hpre, Hps, Hpl. reflexivity.
  - exact (Hthrow _ (engine_on_complete 1) Hno).
  - exact Hnull.
Defined.

Lemma init_pushed_iff_not_initialized_witness :
  exists (w' : World Sim.State Z) (ops : list Opr),
    byteps_mxnet_push_pull_async (Some 1%N) (Some "grad") 0 0
      (Sim.boot Sim.service) = Ret 0 w'
    /\ engine w' = ops
    /\ map stage_of ops = [Initializer; Push; Pull].
Proof.
  destruct (init_pushed_iff_not_initialized (Some 1%N) (Some "grad") 0 0
              (Sim.boot Sim.service) Sim.host_tensor eq_refl)
    as (w' & ops & Hret & Heng & Hstages & _).
  exists w', ops. split; [exact Hret|]. split; [exact Heng | exact Hstages].
Defined.

Lemma stage_dependencies_witness :
  exists (w' : World Sim.State Z) (pre : list Opr) (push pull : Opr),
    byteps_mxnet_push_pull_async (Some 2%N) None 3 1 (Sim.boot Sim.service)
      = Ret 0 w'
    /\ engine w' = pre ++ [push; pull]
    /\ (const_vars push = [9%N] /\ mutable_vars push = [])
    /\ (const_vars pull = [] /\ mutable_vars pull = [9%N]).
Proof.
  destruct (stage_dependencies (Some 2%N) None 3 1 (Sim.boot Sim.service)
              Sim.gpu_tensor eq_refl)
    as (w' & pre & push & pull & Hret & Heng & _ & _ & Hc & Hm & _ & Hc'
        & Hm').
  exists w', pre, push, pull.
  split; [exact Hret|]. split; [exact Heng|]. now repeat split.
Defined.

(** C4, counterexample: the runtime is not initialised, the tensor is
    on GPU 0 and its context has no staging buffer.  [DoFirstStage]
    throws [NotInitialized]; it does not reach the staging-buffer
    check, and nothing is enqueued. *)
Lemma first_stage_throws_before_check :
  nd_device Sim.gpu_tensor <> @CPU_DEVICE_ID Sim.State Z _
  /\ load (Some 2%N) (Sim.boot Sim.not_ready) = Some Sim.gpu_tensor
  /\ cpubuff (context_at "byteps.w" (bps (Sim.boot Sim.not_ready))) = None
  /\ DoFirstStage "byteps.w" (Some 2%N) "byteps.w" 0 0 (engine_on_complete 0)
       (Sim.boot Sim.not_ready)
     = Throw (StatusError "NotInitialized") (Sim.boot Sim.not_ready)
  /\ is_fatal
       (DoFirstStage "byteps.w" (Some 2%N) "byteps.w" 0 0
          (engine_on_complete 0) (Sim.boot Sim.not_ready))
     = false.
Proof. repeat split; try reflexivity. discriminate. Qed.

Lemma first_stage_staging_check_witness :
  DoFirstStage "byteps.w" (Some 2%N) "byteps.w" 0 0 (engine_on_complete 0)
    (Sim.boot Sim.service)
  = Fatal "byteps.w: cpu buffer not initialized." (Sim.boot Sim.service).
Proof.
  assert (Hok : ok (CheckInitialized (bps (Sim.boot Sim.service))) = true)
    by reflexivity.
  assert (Hdev : nd_device Sim.gpu_tensor <> @CPU_DEVICE_ID Sim.State Z _)
    by discriminate.
  exact (first_stage_staging_check "byteps.w" (Some 2%N) "byteps.w" 0 0
           (engine_on_complete 0) (Sim.boot Sim.service) Sim.gpu_tensor
           Hok eq_refl Hdev).
Defined.

(** C10, counterexample: in the same state [DoSecondStage] throws
    [NotInitialized] as well, short of the staging-buffer check. *)
Lemma second_stage_throws_before_check :
  nd_device Sim.gpu_tensor <> @CPU_DEVICE_ID Sim.State Z _
  /\ load (Some 2%N) (Sim.boot Sim.not_ready) = Some Sim.gpu_tensor
  /\ cpubuff (context_at "byteps.w" (bps (Sim.boot Sim.not_ready))) = None
  /\ DoSecondStage "byteps.w" (Some 2%N) "byteps.w" 0 0
       (engine_on_complete 0) (Sim.boot Sim.not_ready)
     = Throw (StatusError "NotInitialized") (Sim.boot Sim.not_ready)
  /\ is_fatal
       (DoSecondStage "byteps.w" (Some 2%N) "byteps.w" 0 0
          (engine_on_complete 0) (Sim.boot Sim.not_ready))
     = false.
Proof. repeat split; try reflexivity. discriminate. Qed.

Lemma second_stage_staging_check_witness :
  DoSecondStage "byteps.w" (Some 2%N) "byteps.w" 0 0 (engine_on_complete 0)
    (Sim.boot Sim.service)
  = Fatal "byteps.w: cpu buffer not initialized." (Sim.boot Sim.service).
Proof.
  assert (Hok : ok (CheckInitialized (bps (Sim.boot Sim.service))) = true)
    by reflexivity.
  assert (Hdev : nd_device Sim.gpu_tensor <> @CPU_DEVICE_ID Sim.State Z _)
    by discriminate.
  exact (proj2 (second_stage_staging_check "byteps.w" (Some 2%N) "byteps.w"
                  0 0 (engine_on_complete 0) (Sim.boot Sim.service)
                  Sim.gpu_tensor Hok eq_refl Hdev)).
Defined.

(** With the staging buffer in place (the initialiser has run) both
    stages of the GPU tensor go through. *)
Lemma stages_with_staging_buffer :
  completions
    <$> final
          ((run_opr 0 ;;; run_opr 1 ;;; run_opr 2)
             (Sim.synced Sim.service 2 (Some "w")))
  = Some [(0%nat, None); (1%nat, None); (2%nat, None)].
Proof. reflexivity. Qed.

Lemma pull_starts_after_push_witness :
  EngineContract.precedes (EngineContract.Complete 1)
    (EngineContract.Start 2)
    [EngineContract.Start 0; EngineContract.Complete 0;
     EngineContract.Start 1; EngineContract.Complete 1;
     EngineContract.Start 2; EngineContract.Complete 2]
  /\ EngineContract.precedes (EngineContract.Complete 0)
       (EngineContract.Start 1)
       [EngineContract.Start 0; EngineContract.Complete 0;
        EngineContract.Start 1; EngineContract.Complete 1;
        EngineContract.Start 2; EngineContract.Complete 2].
Proof.
  assert (Hret : byteps_mxnet_push_pull_async (Some 1%N) (Some "grad") 0 0
                   (Sim.boot Sim.service)
                 = Ret 0 (Sim.synced Sim.service 1 (Some "grad")))
    by (vm_compute; reflexivity).
  assert (Hex : EngineContract.execution
                  (engine (Sim.synced Sim.service 1 (Some "grad")))
                  [EngineContract.Start 0; EngineContract.Complete 0;
                   EngineContract.Start 1; EngineContract.Complete 1;
                   EngineContract.Start 2; EngineContract.Complete 2]
                = true)
    by (vm_compute; reflexivity).
  destruct (pull_starts_after_push (Some 1%N) (Some "grad") 0 0
              (Sim.boot Sim.service) (Sim.synced Sim.service 1 (Some "grad"))
              Sim.host_tensor 0 _ eq_refl Hret Hex)
    as (p & push & pull & _ & Hp & _ & [Hpush _] & _ & Hord & Hinit).
  pose proof (fun i init Hge Hi Hst =>
                proj2 (proj2 (Hinit i init Hge Hi Hst))) as Hfirst.
  assert (Hp1 : p = 1%nat).
  { destruct p as [|[|[|p]]]; [| reflexivity | |];
      vm_compute in Hp; try discriminate Hp;
      injection Hp as <-; discriminate Hpush. }
  subst p. split; [exact Hord|].
  apply (Hfirst 0%nat
           (mkOpr (init_async_fn "byteps.grad" (Some 1%N) "byteps.grad")
              (mkContext 1 0) [] [7%N] kNormal 0 "BytePSInit"));
    [cbn; lia | reflexivity | reflexivity].
Defined.

(** The contract is not idle: the pull stage may not start while the
    push stage is still running. *)
Lemma pull_before_push_completes_refused :
  EngineContract.execution
    (engine (Sim.synced Sim.service 1 (Some "grad")))
    [EngineContract.Start 0; EngineContract.Complete 0;
     EngineContract.Start 1; EngineContract.Start 2]
  = false.
Proof. reflexivity. Qed.

(** C9, the clause on names: with a registry that answers by the name
    alone, two calls under the name [grad], on two host tensors of the
    same size, device and element type, leave the queue Initializer,
    Push, Pull of the first tensor, then Push, Pull of the second, all
    under [byteps.grad].  The stages of the second tensor declare its
    own engine variable only, so the engine may run them to completion
    before the one initialiser of the name starts: that execution
    honours every declared dependency, and run in that order the three
    operations complete with success. *)
Lemma same_name_stages_out_of_order :
  reachable Eager.synced_twins
  /\ map (fun o => (stage_of o, name_of o, tensor_of o))
       (engine Eager.synced_twins)
     = [(Initializer, "byteps.grad", Some 1%N);
        (Push, "byteps.grad", Some 1%N);
        (Pull, "byteps.grad", Some 1%N);
        (Push, "byteps.grad", Some 3%N);
        (Pull, "byteps.grad", Some 3%N)]
  /\ EngineContract.execution (engine Eager.synced_twins) Eager.twins_first
     = true
  /\ ~ EngineContract.precedes (EngineContract.Complete 0)
         (EngineContract.Start 3) Eager.twins_first
  /\ completions
       <$> final ((run_opr 3 ;;; run_opr 4 ;;; run_opr 0) Eager.synced_twins)
     = Some [(3%nat, None); (4%nat, None); (0%nat, None)].
Proof.
  split; [|split; [|split; [|split]]].
  - assert (H1 : exists w1 : World Eager.State Z,
               byteps_mxnet_push_pull_async (Some 1%N) (Some "grad") 0 0
                 Eager.boot = Ret 0 w1
               /\ byteps_mxnet_push_pull_async (Some 3%N) (Some "grad") 0 0 w1
                  = Ret 0 Eager.synced_twins).
    { eexists. split; vm_compute; reflexivity. }
    destruct H1 as (w1 & Hc1 & Hc2).
    eapply reach_call; [|exact Hc2].
    eapply reach_call; [|exact Hc1].
    now apply reach_start.
  - vm_compute. reflexivity.
  - vm_compute. reflexivity.
  - intros Hprec.
    exact (Hprec [] (skipn 1 Eager.twins_first) eq_refl).
  - vm_compute. reflexivity.
Qed.

(** Once the initialiser of the first call has run, a second call on
    the same tensor and name pushes the push and pull stages only. *)
Lemma second_call_skips_initializer :
  Sim.stages_after
    ((byteps_mxnet_push_pull_async (Some 1%N) (Some "grad") 0 0 ;;;
      run_opr 0 ;;;
      byteps_mxnet_push_pull_async (Some 1%N) (Some "grad") 1 0)
       (Sim.boot Sim.service))
  = Some [Initializer; Push; Pull; Push; Pull].
Proof. reflexivity. Qed.

(* ===================================================================== *)
(** * Further properties *)

(** ** Names *)

Lemma sequential_names_distinct_witness :
  NoDup (fst (Naming.anonymous_calls "byteps" 3 0)).
Proof.
  apply (sequential_names_distinct "byteps" 3 0). vm_compute. discriminate.
Defined.

Lemma wrap_period (z : Z) : Int32.wrap (z + Int32.modulus) = Int32.wrap z.
Proof.
  unfold Int32.wrap, Int32.modulus.
  replace (z + 2 ^ 32 + 2 ^ 31) with (z + 2 ^ 31 + 1 * 2 ^ 32) by lia.
  now rewrite Z_mod_plus_full.
Qed.

(** X2: the anonymous names have period 2^32.  After exactly 2^32
    anonymous requests the counter is back where it was, so the next
    anonymous request gets the name the first of them got. *)
Theorem names_repeat_after_modulus (prefix : string) (c : Z) :
  Int32.in_range c ->
  Naming.GetOpName prefix None
    (snd (Naming.anonymous_calls prefix (Z.to_nat Int32.modulus) c))
  = Naming.GetOpName prefix None c.
Proof.
  intros Hc. rewrite anonymous_calls_counter by exact Hc.
  rewrite Z2Nat.id by (unfold Int32.modulus; lia).
  now rewrite wrap_period, wrap_small.
Qed.

Lemma names_repeat_after_modulus_witness :
  Naming.GetOpName "byteps" None
    (snd (Naming.anonymous_calls "byteps" (Z.to_nat Int32.modulus) 0))
  = ("byteps.noname.1", 1).
Proof.
  rewrite (names_repeat_after_modulus "byteps" 0).
  - reflexivity.
  - unfold Int32.in_range, Int32.min_signed, Int32.max_signed. lia.
Defined.

Lemma requests_counter (prefix : string) (names : list (option string)) :
  forall c : Z,
  snd (requests prefix names c) =
  snd (Naming.anonymous_calls prefix (anonymous_count names) c).
Proof.
  induction names as [|[user|] names IH]; intros c; [reflexivity| |].
  - cbn [requests Naming.GetOpName anonymous_count].
    specialize (IH c). destruct (requests prefix names c). exact IH.
  - cbn [requests Naming.GetOpName anonymous_count Naming.anonymous_calls].
    specialize (IH (Naming.fetch_add_1 c)).
    destruct (requests prefix names (Naming.fetch_add_1 c)),
      (Naming.anonymous_calls prefix (anonymous_count names)
         (Naming.fetch_add_1 c)).
    exact IH.
Qed.

Lemma requests_anonymous (prefix : string) (names : list (option string)) :
  forall c : Z,
  anonymous_results names (fst (requests prefix names c)) =
  fst (Naming.anonymous_calls prefix (anonymous_count names) c).
Proof.
  induction names as [|[user|] names IH]; intros c; [reflexivity| |].
  - cbn [requests Naming.GetOpName anonymous_count].
    specialize (IH c). destruct (requests prefix names c). exact IH.
  - cbn [requests Naming.GetOpName anonymous_count Naming.anonymous_calls].
    specialize (IH (Naming.fetch_add_1 c)).
    destruct (requests prefix names (Naming.fetch_add_1 c)),
      (Naming.anonymous_calls prefix (anonymous_count names)
         (Naming.fetch_add_1 c)).
    cbn [fst anonymous_results] in *. now f_equal.
Qed.

Lemma requests_named (prefix : string) (names : list (option string)) :
  forall (c : Z) (i : nat) (user : string),
  names !! i = Some (Some user) ->
  fst (requests prefix names c) !! i = Some (prefix +:+ "." +:+ user).
Proof.
  induction names as [|name names IH]; intros c i user Hi; [discriminate|].
  cbn [requests].
  destruct (Naming.GetOpName prefix name c) as [s c1] eqn:Hs.
  specialize (IH c1). destruct (requests prefix names c1) as [rest c2].
  destruct i as [|i]; cbn in Hi |- *.
  - injection Hi as ->. cbn in Hs. now injection Hs as <- _.
  - now apply IH.
Qed.

(** X3: requests with a user name do not use up counter values.  In
    any sequence of calls, the anonymous ones get the names, and leave
    the counter, that they would get and leave if the named calls were
    not there; each named call gets [prefix + "." + userName]. *)
Theorem named_requests_keep_counter (prefix : string)
    (names : list (option string)) (c : Z) :
  snd (requests prefix names c) =
    snd (Naming.anonymous_calls prefix (anonymous_count names) c)
  /\ anonymous_results names (fst (requests prefix names c)) =
       fst (Naming.anonymous_calls prefix (anonymous_count names) c)
  /\ forall (i : nat) (user : string),
       names !! i = Some (Some user) ->
       fst (requests prefix names c) !! i = Some (prefix +:+ "." +:+ user).
Proof.
  split; [apply requests_counter|].
  split; [apply requests_anonymous | apply requests_named].
Qed.

(** X4: two user names get the same name only if they are equal, and
    a user name gets the name of an anonymous request exactly when it
    reads [noname.N] with [N] that request's number: nothing keeps
    user names apart from generated ones. *)
Theorem user_names_and_generated_names (prefix a b : string) (c c' : Z) :
  (fst (Naming.GetOpName prefix (Some a) c)
     = fst (Naming.GetOpName prefix (Some b) c') <-> a = b)
  /\ (fst (Naming.GetOpName prefix (Some a) c')
        = fst (Naming.GetOpName prefix None c)
      <-> a = "noname." +:+ to_string (Naming.fetch_add_1 c)).
Proof.
  cbn [Naming.GetOpName fst]. split; split.
  - intros Heq. apply String.app_inj in Heq. now injection Heq.
  - now intros ->.
  - intros Heq. apply String.app_inj in Heq. cbn in Heq. now injection Heq.
  - now intros ->.
Qed.

(** ** Concurrent callers *)

Lemma progressed_app (l1 l2 : list Naming.Thread) :
  progressed (l1 ++ l2) = (progressed l1 + progressed l2)%nat.
Proof. unfold progressed. now rewrite filter_app, length_app. Qed.

Lemma progressed_cons (t : Naming.Thread) (l : list Naming.Thread) :
  progressed (t :: l) =
  ((if past_fetch_add t then 1 else 0) + progressed l)%nat.
Proof.
  unfold progressed. rewrite filter_cons.
  destruct (decide (past_fetch_add t = true)) as [->|Hn].
  - reflexivity.
  - now destruct (past_fetch_add t).
Qed.

(** One step of the pool: either a caller executes its [fetch_add],
    and both the counter and the number of callers past it go up by
    one, or neither changes. *)
Lemma pool_step_counts (i : nat) (ts : list Naming.Thread) (c : Z) :
  (snd (Naming.pool_step i ts c) = Naming.fetch_add_1 c
   /\ progressed (fst (Naming.pool_step i ts c)) = S (progressed ts))
  \/ (snd (Naming.pool_step i ts c) = c
      /\ progressed (fst (Naming.pool_step i ts c)) = progressed ts).
Proof.
  unfold Naming.pool_step.
  destruct (ts !! i) as [t|] eqn:Hi; [|right; now split].
  assert (Hlen : (i < length ts)%nat) by (eapply lookup_lt_Some; exact Hi).
  pose proof (take_drop_middle ts i t Hi) as Hts.
  assert (Hins : forall t' : Naming.Thread,
            (progressed (<[i := t']> ts) + (if past_fetch_add t then 1 else 0)
             = progressed ts + (if past_fetch_add t' then 1 else 0))%nat).
  { intros t'. rewrite insert_take_drop by exact Hlen.
    pose proof (f_equal progressed Hts) as Hp.
    rewrite progressed_app, progressed_cons in Hp.
    rewrite progressed_app, progressed_cons. lia. }
  destruct t as [prefix|prefix|r]; cbn [Naming.thread_step fst snd].
  - left. split; [reflexivity|]. specialize (Hins (Naming.AtLoad prefix)).
    cbn in Hins. lia.
  - right. split; [reflexivity|].
    specialize (Hins (Naming.Returned
                        (prefix +:+ ".noname." +:+ to_string c))).
    cbn in Hins. lia.
  - right. split; [reflexivity|]. specialize (Hins (Naming.Returned r)).
    cbn in Hins. lia.
Qed.

(** X5: no increment is lost.  Under every schedule, the counter has
    advanced (modulo 2^32) by exactly the number of callers that have
    executed their [fetch_add] in the meantime; concurrent callers can
    only disagree with each other on names, never with the counter. *)
Theorem concurrent_counter_exact (sched : list nat)
    (ts : list Naming.Thread) (c : Z) :
  Int32.in_range c ->
  snd (Naming.run_schedule sched ts c) =
  Int32.wrap
    (c + Z.of_nat (progressed (fst (Naming.run_schedule sched ts c)))
       - Z.of_nat (progressed ts)).
Proof.
  revert ts c. induction sched as [|i sched IH]; intros ts c Hc.
  - cbn [Naming.run_schedule fst snd].
    replace (c + Z.of_nat (progressed ts) - Z.of_nat (progressed ts))
      with c by lia.
    symmetry. now apply wrap_small.
  - cbn [Naming.run_schedule].
    pose proof (pool_step_counts i ts c) as Hstep.
    destruct (Naming.pool_step i ts c) as [ts1 c1].
    cbn [fst snd] in Hstep.
    destruct Hstep as [[-> Hp]|[-> Hp]].
    + rewrite IH by apply wrap_in_range. rewrite Hp.
      unfold Naming.fetch_add_1, Int32.add.
      replace (Int32.wrap (c + 1)
               + Z.of_nat (progressed (fst (Naming.run_schedule sched ts1
                    (Int32.wrap (c + 1)))))
               - Z.of_nat (S (progressed ts)))
        with (Int32.wrap (c + 1)
              + (Z.of_nat (progressed (fst (Naming.run_schedule sched ts1
                    (Int32.wrap (c + 1)))))
                 - Z.of_nat (S (progressed ts)))) by lia.
      rewrite wrap_wrap_add. f_equal. lia.
    + rewrite IH by exact Hc. now rewrite Hp.
Qed.

Lemma concurrent_counter_exact_witness :
  snd (Naming.run_schedule [0; 1; 0; 1]%nat
         [Naming.AtFetchAdd "byteps"; Naming.AtFetchAdd "byteps"] 0)
  = 2.
Proof.
  rewrite (concurrent_counter_exact [0; 1; 0; 1]%nat
             [Naming.AtFetchAdd "byteps"; Naming.AtFetchAdd "byteps"] 0).
  - reflexivity.
  - unfold Int32.in_range, Int32.min_signed, Int32.max_signed. lia.
Defined.

(** A step of the caller in the middle of the pool. *)
Lemma pool_step_middle (done rest : list Naming.Thread) (t : Naming.Thread)
    (c : Z) :
  Naming.pool_step (length done) (done ++ t :: rest) c
  = (done ++ fst (Naming.thread_step t c) :: rest,
     snd (Naming.thread_step t c)).
Proof.
  unfold Naming.pool_step.
  rewrite list_lookup_middle by reflexivity.
  destruct (Naming.thread_step t c) as [t' c']. cbn [fst snd].
  rewrite <- (Nat.add_0_r (length done)) at 1.
  now rewrite insert_app_r.
Qed.

(** A caller that runs both of its steps without another caller in
    between ends up with the name of a sequential call. *)
Lemma run_uninterrupted (prefix : string) (done rest : list Naming.Thread)
    (sched : list nat) (c : Z) :
  Naming.run_schedule (length done :: length done :: sched)
    (done ++ Naming.AtFetchAdd prefix :: rest) c
  = Naming.run_schedule sched
      (done ++ Naming.Returned (fst (Naming.GetOpName prefix None c)) :: rest)
      (snd (Naming.GetOpName prefix None c)).
Proof.
  cbn [Naming.run_schedule]. rewrite pool_step_middle.
  cbn [Naming.thread_step fst snd]. rewrite pool_step_middle.
  reflexivity.
Qed.

Lemma serial_run (prefix : string) (n : nat) :
  forall (done : list Naming.Thread) (c : Z),
  Naming.run_schedule (serial (length done) n)
    (done ++ replicate n (Naming.AtFetchAdd prefix)) c
  = (done ++ map Naming.Returned (fst (Naming.anonymous_calls prefix n c)),
     snd (Naming.anonymous_calls prefix n c)).
Proof.
  induction n as [|n IH]; intros done c; [reflexivity|].
  cbn [serial replicate]. rewrite run_uninterrupted.
  cbn [Naming.anonymous_calls].
  destruct (Naming.GetOpName prefix None c) as [s c1] eqn:Hs.
  cbn [fst snd].
  specialize (IH (done ++ [Naming.Returned s]) c1).
  rewrite length_app, Nat.add_1_r, <- app_assoc in IH. cbn [app] in IH.
  rewrite IH.
  destruct (Naming.anonymous_calls prefix n c1) as [rest c2].
  cbn [fst snd map]. now rewrite <- app_assoc.
Qed.

(** X6: serialised callers are safe.  When [n] callers run [GetOpName]
    one at a time (each runs line 39 and line 40 with no other caller
    in between), they get exactly the names of [n] sequential calls,
    which are pairwise distinct for [n] up to 2^32. *)
Theorem serial_callers_get_distinct_names (prefix : string) (n : nat) (c : Z) :
  Z.of_nat n <= Int32.modulus ->
  Naming.run_schedule (serial 0 n)
    (replicate n (Naming.AtFetchAdd prefix)) c
  = (map Naming.Returned (fst (Naming.anonymous_calls prefix n c)),
     snd (Naming.anonymous_calls prefix n c))
  /\ NoDup (fst (Naming.run_schedule (serial 0 n)
                  (replicate n (Naming.AtFetchAdd prefix)) c)).
Proof.
  intros Hn.
  pose proof (serial_run prefix n [] c) as Hrun. cbn [length app] in Hrun.
  split; [exact Hrun|].
  rewrite Hrun. cbn [fst].
  apply (NoDup_fmap_2_strong Naming.Returned).
  - intros x y _ _ [= ->]. reflexivity.
  - rewrite anonymous_calls_names.
    apply (NoDup_fmap_2_strong _ (seq 1 n)); [|apply NoDup_seq].
    intros x y Hx Hy Heq.
    apply elem_of_seq in Hx. apply elem_of_seq in Hy.
    apply noname_inj, wrap_inj_window in Heq; [lia|].
    unfold Int32.modulus in *. lia.
Qed.

Lemma serial_callers_get_distinct_names_witness :
  Naming.run_schedule [0; 0; 1; 1]%nat
    [Naming.AtFetchAdd "byteps"; Naming.AtFetchAdd "byteps"] 0
  = ([Naming.Returned "byteps.noname.1"; Naming.Returned "byteps.noname.2"],
     2).
Proof.
  assert (Hn : Z.of_nat 2 <= Int32.modulus) by (vm_compute; discriminate).
  exact (proj1 (serial_callers_get_distinct_names "byteps" 2 0 Hn)).
Defined.

(** ** What a call touches *)

Section CallFacts.

Context {G E : Type} `{!Common G E}.

Implicit Types (w : World G E) (tensor input : NDArrayPtr) (nd : NDArray E).

Lemma completions_store_data tensor (d : list E) w :
  completions (store_data tensor d w) = completions w.
Proof.
  unfold store_data.
  destruct tensor as [a|]; cbn [load]; [destruct (heap w !! a)|]; reflexivity.
Qed.

Lemma op_count_store_data tensor (d : list E) w :
  op_count (store_data tensor d w) = op_count w.
Proof.
  unfold store_data.
  destruct tensor as [a|]; cbn [load]; [destruct (heap w !! a)|]; reflexivity.
Qed.

Lemma heap_store_data_other tensor (d : list E) w (b : N) :
  tensor <> Some b ->
  heap (store_data tensor d w) !! b = heap w !! b.
Proof.
  intros Hne. unfold store_data.
  destruct tensor as [a|]; cbn [load]; [|reflexivity].
  destruct (heap w !! a); [|reflexivity].
  cbn [heap set_heap]. apply lookup_insert_ne. congruence.
Qed.

(** A call that returns was given a valid tensor. *)
Lemma call_returns_valid tensor (name : option string) (version priority rc : Z)
    w (w' : World G E) :
  byteps_mxnet_push_pull_async tensor name version priority w = Ret rc w' ->
  exists nd, load tensor w = Some nd.
Proof.
  intros Hret. destruct (load tensor w) as [nd|] eqn:Hload; [now exists nd|].
  exfalso.
  unfold byteps_mxnet_push_pull_async, MX_API in Hret.
  unfold bind at 1 2 in Hret. rewrite GetOpName_run in Hret.
  unfold bind at 1, deref at 1 in Hret.
  replace (load tensor _) with (@None (NDArray E)) in Hret
    by (destruct tensor; exact (eq_sym Hload)).
  discriminate Hret.
Qed.

(** X7: a call on a valid tensor changes nothing but the counter, the
    tail of the queue, the library's state and, through the division
    it issues, the data of its own tensor.  The recorded completions,
    every other tensor, the operations already queued, and the
    tensor's variable, context, size, device, dtype and number of
    elements are as before. *)
Theorem call_frame tensor (name : option string) (version priority : Z) w nd :
  load tensor w = Some nd ->
  exists (w' : World G E) (nd' : NDArray E),
    byteps_mxnet_push_pull_async tensor name version priority w = Ret 0 w'
    /\ completions w' = completions w
    /\ (forall b : N, tensor <> Some b -> heap w' !! b = heap w !! b)
    /\ (forall (i : nat) (o : Opr),
          engine w !! i = Some o -> engine w' !! i = Some o)
    /\ load tensor w' = Some nd'
    /\ (nd_var nd' = nd_var nd /\ nd_ctx nd' = nd_ctx nd
        /\ nd_size nd' = nd_size nd /\ nd_device nd' = nd_device nd
        /\ nd_dtype nd' = nd_dtype nd)
    /\ length (nd_data nd') = length (nd_data nd).
Proof.
  intros Hload.
  pose proof (push_pull_async_run tensor name version priority w nd Hload)
    as Hrun.
  cbv zeta in Hrun.
  eexists. exists nd. split; [exact Hrun|].
  split; [reflexivity|].
  split; [intros b Hb; reflexivity|].
  split.
  { intros i o Hi. cbn [engine]. now apply lookup_app_l_Some. }
  split.
  { destruct tensor; exact Hload. }
  split; [now repeat split | reflexivity].
Qed.

(** X8: how a call hands its arguments on.  Every operation it pushes
    runs under the tensor's context with property [kNormal] and engine
    priority 0, under the name of its stage; the caller's [priority]
    and [version] never reach the engine and travel in the closures of
    the push and pull stages only.  All the closures carry the one
    name [GetOpName] returned, so an anonymous call uses up exactly one
    counter value. *)
Theorem pushed_operations_parameters tensor (name : option string)
    (version priority : Z) w nd :
  load tensor w = Some nd ->
  exists (w' : World G E) (ops : list Opr),
    byteps_mxnet_push_pull_async tensor name version priority w = Ret 0 w'
    /\ engine w' = engine w ++ ops
    /\ op_count w' = snd (Naming.GetOpName "byteps" name (op_count w))
    /\ Forall
         (fun o =>
            prop o = kNormal /\ opr_priority o = 0
            /\ exec_ctx o = nd_ctx nd
            /\ opr_name o = label (stage_of o)
            /\ tensor_of o = tensor
            /\ name_of o = fst (Naming.GetOpName "byteps" name (op_count w))
            /\ hints_of o =
               match stage_of o with
               | Initializer => None
               | Push | Pull => Some (version, priority)
               end) ops.
Proof.
  intros Hload.
  pose proof (push_pull_async_run tensor name version priority w nd Hload)
    as Hrun.
  cbv zeta in Hrun.
  eexists. eexists. split; [exact Hrun|].
  cbn [engine op_count].
  split; [reflexivity|]. split; [reflexivity|].
  destruct (fst (IsTensorInitialized _ _ _ _ _)); cbn [app];
    repeat constructor.
Qed.

(** X9: the shape of the queue.  In every state the process can reach
    by calls of the entry point, runs of pushed operations and
    divisions carried out, the queue is a sequence of blocks, one per
    call: the initialiser or none, the push stage, and right behind it
    the pull stage with the same context, tensor, name, version and
    priority; and every operation declares the engine variable of its
    own tensor, read by the push stage and written by the other
    two. *)
Theorem reachable_queue_shape w :
  reachable w -> request_blocks (engine w) /\ well_declared w.
Proof.
  intros Hreach. split; [|now apply reachable_well_declared].
  induction Hreach as [w Hnil | w w' tensor name version priority rc _ IH Hret
                      | w w' i _ IH Hrun | w w' k _ IH Hrun].
  - rewrite Hnil. constructor.
  - destruct (call_returns_valid _ _ _ _ _ _ _ Hret) as [nd Hload].
    pose proof (push_pull_async_run tensor name version priority w nd Hload)
      as Hrun.
    cbv zeta in Hrun. rewrite Hrun in Hret. injection Hret as _ <-.
    cbn [engine].
    apply blocks_call; [exact IH | reflexivity | |].
    + destruct (fst (IsTensorInitialized _ _ _ _ _)); repeat constructor.
    + destruct (fst (IsTensorInitialized _ _ _ _ _)); cbn; lia.
  - now destruct (run_opr_keeps i w w' None Hrun) as [-> _].
  - now destruct (run_scaling_keeps k w w' None Hrun) as [-> _].
Qed.

End CallFacts.

(** ** What a stage does *)

Section StageFacts.

Context {G E : Type} `{!Common G E}.

Implicit Types (w : World G E) (input : NDArrayPtr) (nd : NDArray E).

(** The initialiser, once the runtime check has passed and the tensor
    is there: straight to [InitTensor]. *)
Lemma DoInit_run (context : ContextRef) input (name : string)
    (on_complete : Callback) w nd :
  ok (CheckInitialized (bps w)) = true ->
  load input w = Some nd ->
  DoInit context input name on_complete w =
  (init_result <-
     async_call (InitTensor context nd name (nd_device nd)) input
       (fun status => InvokeCompleteCallback on_complete status) ;;
   ThrowIfError init_result) w.
Proof.
  intros Hok Hload. unfold DoInit.
  unfold bind at 1 2 3, gets at 1, ThrowIfError at 1, deref at 1.
  now rewrite Hok, Hload.
Qed.

(** Any pushed closure, once the runtime check has passed and the
    tensor is there: the staging test, then the call into the
    library. *)
Lemma call_async_fn_run (f : AsyncFn) (on_complete : Callback) w nd :
  ok (CheckInitialized (bps w)) = true ->
  load (captured f) w = Some nd ->
  call_async_fn f on_complete w =
  if staging_ok f nd (bps w) then
    (r <- async_call (library_call f nd) (captured f)
            (fun status => InvokeCompleteCallback on_complete status) ;;
     ThrowIfError r) w
  else
    Fatal (match f with
           | init_async_fn _ _ n | first_stage_async_fn _ _ n _ _
           | second_stage_async_fn _ _ n _ _ => n
           end +:+ ": cpu buffer not initialized.") w.
Proof.
  intros Hok Hload.
  destruct f as [c t n|c t n v pr|c t n v pr];
    cbn [call_async_fn captured staging_ok library_call] in *.
  - now apply DoInit_run.
  - rewrite (DoFirstStage_run _ _ _ _ _ _ _ _ Hok Hload). unfold push_tail.
    destruct (decide (nd_device nd <> CPU_DEVICE_ID)) as [Hdev|Hdev].
    + rewrite (bool_decide_eq_false_2 _ Hdev). cbn [orb].
      destruct (cpubuff (context_at c (bps w))) as [b|] eqn:Hb.
      * rewrite bool_decide_eq_true_2 by (now exists b). reflexivity.
      * rewrite bool_decide_eq_false_2 by (intros [b Hb']; discriminate).
        reflexivity.
    + rewrite bool_decide_eq_true_2
        by (destruct (decide (nd_device nd = CPU_DEVICE_ID)); tauto).
      reflexivity.
  - rewrite (DoSecondStage_run _ _ _ _ _ _ _ _ Hok Hload). unfold pull_tail.
    destruct (decide (nd_device nd <> CPU_DEVICE_ID)) as [Hdev|Hdev].
    + rewrite (bool_decide_eq_false_2 _ Hdev). cbn [orb].
      destruct (cpubuff (context_at c (bps w))) as [b|] eqn:Hb.
      * rewrite bool_decide_eq_true_2 by (now exists b). reflexivity.
      * rewrite bool_decide_eq_false_2 by (intros [b Hb']; discriminate).
        reflexivity.
    + rewrite bool_decide_eq_true_2
        by (destruct (decide (nd_device nd = CPU_DEVICE_ID)); tauto).
      reflexivity.
Qed.

(** X10: the initialiser has no staging-buffer test.  In the very
    state in which the push stage dies on the missing staging buffer
    of an off-host tensor, [DoInit] goes through to [InitTensor] and
    ends in a return or a thrown status. *)
Theorem initializer_has_no_staging_check (context : ContextRef) input
    (name : string) (version priority : Z) (on_complete : Callback) w nd :
  ok (CheckInitialized (bps w)) = true ->
  load input w = Some nd ->
  nd_device nd <> CPU_DEVICE_ID ->
  cpubuff (context_at context (bps w)) = None ->
  DoInit context input name on_complete w =
    (init_result <-
       async_call (InitTensor context nd name (nd_device nd)) input
         (fun status => InvokeCompleteCallback on_complete status) ;;
     ThrowIfError init_result) w
  /\ is_fatal (DoInit context input name on_complete w) = false
  /\ is_fatal
       (DoFirstStage context input name version priority on_complete w)
     = true.
Proof.
  intros Hok Hload Hdev Hbuf.
  rewrite (DoInit_run _ _ _ _ _ _ Hok Hload).
  split; [reflexivity|]. split; [apply tail_not_fatal|].
  rewrite (DoFirstStage_run _ _ _ _ _ _ _ _ Hok Hload).
  destruct (decide (nd_device nd <> CPU_DEVICE_ID)); [|contradiction].
  now rewrite Hbuf.
Qed.

(** X11: a tensor on the host needs no staging buffer.  Once the
    runtime check has passed, both stages of a host tensor reach their
    enqueue whatever the context holds, and do not end in a failed
    check. *)
Theorem host_tensor_skips_staging_check (context : ContextRef) input
    (name : string) (version priority : Z) (on_complete : Callback) w nd :
  ok (CheckInitialized (bps w)) = true ->
  load input w = Some nd ->
  nd_device nd = CPU_DEVICE_ID ->
  (DoFirstStage context input name version priority on_complete w =
     push_tail context input nd name version priority on_complete w
   /\ is_fatal
        (DoFirstStage context input name version priority on_complete w)
      = false)
  /\ (DoSecondStage context input name version priority on_complete w =
        pull_tail context input nd name version priority on_complete w
      /\ is_fatal
           (DoSecondStage context input name version priority on_complete w)
         = false).
Proof.
  intros Hok Hload Hdev.
  rewrite (DoFirstStage_run _ _ _ _ _ _ _ _ Hok Hload),
    (DoSecondStage_run _ _ _ _ _ _ _ _ Hok Hload).
  destruct (decide (nd_device nd <> CPU_DEVICE_ID)); [contradiction|].
  repeat split; apply tail_not_fatal.
Qed.

(** X12: when a stage returns, and when it dies.  For a closure whose
    tensor is valid: it returns normally exactly when the runtime
    check passes, the staging test passes and the status its call into
    the library returns is Ok; it ends in a failed check exactly when
    the runtime check passes and the staging test fails; in every
    other case it throws. *)
Theorem stage_outcome (f : AsyncFn) (on_complete : Callback) w nd :
  load (captured f) w = Some nd ->
  ((exists w' : World G E, call_async_fn f on_complete w = Ret tt w')
   <-> ok (CheckInitialized (bps w)) = true
       /\ staging_ok f nd (bps w) = true
       /\ ok (returned (fst (library_call f nd (bps w)))) = true)
  /\ (is_fatal (call_async_fn f on_complete w) = true
      <-> ok (CheckInitialized (bps w)) = true
          /\ staging_ok f nd (bps w) = false)
  /\ ((exists (s : Status) (w' : World G E),
         call_async_fn f on_complete w = Throw s w')
      <-> ok (CheckInitialized (bps w)) = false
          \/ (staging_ok f nd (bps w) = true
              /\ ok (returned (fst (library_call f nd (bps w)))) = false)).
Proof.
  intros Hload.
  destruct (ok (CheckInitialized (bps w))) eqn:Hok.
  - rewrite (call_async_fn_run f on_complete w nd Hok Hload).
    destruct (staging_ok f nd (bps w)).
    + unfold bind, async_call, ThrowIfError.
      destruct (library_call f nd (bps w)) as [r g]. cbn [fst].
      destruct (ok (returned r)).
      * split; [|split].
        -- split; [now intros _ | intros _; eexists; reflexivity].
        -- split; [discriminate | intros [_ Hf]; discriminate Hf].
        -- split; [intros (s & w' & Hs); discriminate Hs|].
           intros [Hf|[_ Hf]]; discriminate Hf.
      * split; [|split].
        -- split; [intros [w' Hw']; discriminate Hw'|].
           intros (_ & _ & Hf). discriminate Hf.
        -- split; [discriminate | intros [_ Hf]; discriminate Hf].
        -- split; [intros _; now right|].
           intros _. eexists. eexists. reflexivity.
    + split; [|split].
      * split; [intros [w' Hw']; discriminate Hw'|].
        intros (_ & Hf & _). discriminate Hf.
      * split; [now intros _ | reflexivity].
      * split; [intros (s & w' & Hs); discriminate Hs|].
        intros [Hf|[Hf _]]; discriminate Hf.
  - rewrite (stage_not_initialized f on_complete w Hok).
    split; [|split].
    + split; [intros [w' Hw']; discriminate Hw'|].
      intros (Hf & _). discriminate Hf.
    + split; [discriminate | intros [Hf _]; discriminate Hf].
    + split; [intros _; now left|].
      intros _. eexists. eexists. reflexivity.
Qed.

(** X13: what the engine hears of an operation.  When the engine runs
    operation [i] on a valid tensor, its completion callback is invoked
    with what the library delivers for that stage and with nothing
    else: no error for a delivered Ok, the delivered reason for an
    error, and no invocation at all when the runtime check or the
    staging test fails or the library never calls back. *)
Theorem completion_report (i : nat) (o : Opr) w nd :
  engine w !! i = Some o ->
  load (captured (exec_fun o)) w = Some nd ->
  exists w' : World G E,
    final (run_opr i w) = Some w'
    /\ completions w' =
       completions w ++
       (if ok (CheckInitialized (bps w))
           && staging_ok (exec_fun o) nd (bps w)
        then
          match delivered (fst (library_call (exec_fun o) nd (bps w))) with
          | Some s => [reported i s]
          | None => []
          end
        else []).
Proof.
  intros Hi Hload. unfold run_opr. rewrite Hi.
  destruct (ok (CheckInitialized (bps w))) eqn:Hok; cbn [andb].
  - rewrite (call_async_fn_run _ (engine_on_complete i) w nd Hok Hload).
    destruct (staging_ok (exec_fun o) nd (bps w)).
    + unfold bind, async_call, ThrowIfError.
      destruct (library_call (exec_fun o) nd (bps w)) as [r g]. cbn [fst].
      assert (Hc : completions
                     (match delivered r with
                      | Some s =>
                          InvokeCompleteCallback (engine_on_complete i) s
                            (match written r with
                             | Some d =>
                                 store_data (captured (exec_fun o)) d
                                   (set_bps g w)
                             | None => set_bps g w
                             end)
                      | None =>
                          match written r with
                          | Some d =>
                              store_data (captured (exec_fun o)) d
                                (set_bps g w)
                          | None => set_bps g w
                          end
                      end)
                   = completions w ++
                     match delivered r with
                     | Some s => [reported i s]
                     | None => []
                     end).
      { assert (Hw : completions
                       (match written r with
                        | Some d =>
                            store_data (captured (exec_fun o)) d (set_bps g w)
                        | None => set_bps g w
                        end) = completions w).
        { destruct (written r); [now rewrite completions_store_data|].
          reflexivity. }
        destruct (delivered r) as [s|]; [|now rewrite Hw, app_nil_r].
        unfold InvokeCompleteCallback, engine_on_complete, reported.
        destruct (ok s); cbn [completions set_completions]; now rewrite Hw. }
      destruct (ok (returned r)); cbn [final]; eexists; split;
        first [reflexivity | exact Hc].
    + cbn [final]. eexists. split; [reflexivity|]. now rewrite app_nil_r.
  - rewrite (stage_not_initialized _ _ _ Hok). cbn [final].
    eexists. split; [reflexivity|]. now rewrite app_nil_r.
Qed.

End StageFacts.

(** ** The further properties over the stand-in *)

Lemma call_frame_witness :
  exists w' : World Sim.State Z,
    byteps_mxnet_push_pull_async (Some 1%N) (Some "grad") 0 0
      (Sim.boot Sim.service) = Ret 0 w'
    /\ completions w' = []
    /\ heap w' !! 2%N = Some Sim.gpu_tensor.
Proof.
  destruct (call_frame (Some 1%N) (Some "grad") 0 0 (Sim.boot Sim.service)
              Sim.host_tensor eq_refl)
    as (w' & nd' & Hret & Hc & Hother & _).
  exists w'. split; [exact Hret|]. split; [exact Hc|].
  rewrite (Hother 2%N) by discriminate. reflexivity.
Defined.

Lemma pushed_operations_parameters_witness :
  exists (w' : World Sim.State Z) (ops : list Opr),
    byteps_mxnet_push_pull_async (Some 1%N) None 3 5 (Sim.boot Sim.service)
      = Ret 0 w'
    /\ engine w' = ops
    /\ op_count w' = 1
    /\ Forall (fun o => opr_priority o = 0 /\ name_of o = "byteps.noname.1")
         ops.
Proof.
  destruct (pushed_operations_parameters (Some 1%N) None 3 5
              (Sim.boot Sim.service) Sim.host_tensor eq_refl)
    as (w' & ops & Hret & Heng & Hc & Hops).
  exists w', ops. split; [exact Hret|]. split; [exact Heng|].
  split; [exact Hc|].
  eapply Forall_impl; [exact Hops|].
  intros o (_ & Hp & _ & _ & _ & Hn & _). split; [exact Hp | exact Hn].
Defined.

Lemma synced_twice_reachable : reachable synced_twice.
Proof.
  apply (reach_call
           (default (Sim.synced Sim.service 1 (Some "grad"))
              (final (run_opr 0 (Sim.synced Sim.service 1 (Some "grad")))))
           synced_twice (Some 1%N) (Some "grad") 1 0 0).
  - apply (reach_run (Sim.synced Sim.service 1 (Some "grad")) _ 0).
    + apply (reach_call (Sim.boot Sim.service) _ (Some 1%N) (Some "grad")
               0 0 0).
      * now apply reach_start.
      * vm_compute. reflexivity.
    + vm_compute. reflexivity.
  - vm_compute. reflexivity.
Qed.

Lemma reachable_queue_shape_witness :
  request_blocks (engine synced_twice)
  /\ map stage_of (engine synced_twice)
     = [Initializer; Push; Pull; Push; Pull].
Proof.
  split; [|reflexivity].
  exact (proj1 (reachable_queue_shape synced_twice synced_twice_reachable)).
Defined.

Lemma initializer_has_no_staging_check_witness :
  is_fatal
    (DoInit "byteps.w" (Some 2%N) "byteps.w" (engine_on_complete 0)
       (Sim.boot Sim.service)) = false
  /\ is_fatal
       (DoFirstStage "byteps.w" (Some 2%N) "byteps.w" 0 0
          (engine_on_complete 0) (Sim.boot Sim.service)) = true.
Proof.
  assert (Hok : ok (CheckInitialized (bps (Sim.boot Sim.service))) = true)
    by reflexivity.
  assert (Hdev : nd_device Sim.gpu_tensor <> @CPU_DEVICE_ID Sim.State Z _)
    by discriminate.
  assert (Hbuf : cpubuff (context_at "byteps.w" (bps (Sim.boot Sim.service)))
                 = None) by reflexivity.
  exact (proj2 (initializer_has_no_staging_check "byteps.w" (Some 2%N)
                  "byteps.w" 0 0 (engine_on_complete 0)
                  (Sim.boot Sim.service) Sim.gpu_tensor Hok eq_refl Hdev
                  Hbuf)).
Defined.

Lemma host_tensor_skips_staging_check_witness :
  cpubuff (context_at "byteps.grad" (bps (Sim.boot Sim.service))) = None
  /\ is_fatal
       (DoFirstStage "byteps.grad" (Some 1%N) "byteps.grad" 0 0
          (engine_on_complete 0) (Sim.boot Sim.service)) = false
  /\ is_fatal
       (DoSecondStage "byteps.grad" (Some 1%N) "byteps.grad" 0 0
          (engine_on_complete 0) (Sim.boot Sim.service)) = false.
Proof.
  assert (Hok : ok (CheckInitialized (bps (Sim.boot Sim.service))) = true)
    by reflexivity.
  assert (Hdev : nd_device Sim.host_tensor = @CPU_DEVICE_ID Sim.State Z _)
    by reflexivity.
  destruct (host_tensor_skips_staging_check "byteps.grad" (Some 1%N)
              "byteps.grad" 0 0 (engine_on_complete 0)
              (Sim.boot Sim.service) Sim.host_tensor Hok eq_refl Hdev)
    as [[_ Hpush] [_ Hpull]].
  split; [reflexivity|]. split; [exact Hpush | exact Hpull].
Defined.

Lemma stage_outcome_witness :
  exists w' : World Sim.State Z,
    call_async_fn
      (second_stage_async_fn "byteps.grad" (Some 1%N) "byteps.grad" 0 0)
      (engine_on_complete 2) (Sim.boot Sim.service) = Ret tt w'.
Proof.
  assert (Hconds :
            ok (CheckInitialized (bps (Sim.boot Sim.service))) = true
            /\ staging_ok
                 (second_stage_async_fn "byteps.grad" (Some 1%N)
                    "byteps.grad" 0 0)
                 Sim.host_tensor (bps (Sim.boot Sim.service)) = true
            /\ ok (returned
                     (fst (library_call
                             (second_stage_async_fn "byteps.grad" (Some 1%N)
                                "byteps.grad" 0 0)
                             Sim.host_tensor (bps (Sim.boot Sim.service)))))
               = true)
    by (repeat split; reflexivity).
  exact (proj2 (proj1 (stage_outcome
                         (second_stage_async_fn "byteps.grad" (Some 1%N)
                            "byteps.grad" 0 0)
                         (engine_on_complete 2) (Sim.boot Sim.service)
                         Sim.host_tensor eq_refl)) Hconds).
Defined.

Lemma completion_report_witness :
  exists w' : World Sim.State Z,
    final (run_opr 1 (Sim.synced Sim.failing_push 1 (Some "grad"))) = Some w'
    /\ completions w' = [(1%nat, Some (Error "push rejected"))].
Proof.
  assert (Hi : engine (Sim.synced Sim.failing_push 1 (Some "grad")) !! 1%nat
               = Some (mkOpr
                         (first_stage_async_fn "byteps.grad" (Some 1%N)
                            "byteps.grad" 0 0)
                         (mkContext 1 0) [7%N] [] kNormal 0
                         "BytePSFirstStage"))
    by (vm_compute; reflexivity).
  assert (Hload : load (Some 1%N) (Sim.synced Sim.failing_push 1 (Some "grad"))
                  = Some Sim.host_tensor)
    by (vm_compute; reflexivity).
  destruct (completion_report 1 _ _ _ Hi Hload) as (w' & Hfin & Hc).
  exists w'. split; [exact Hfin|]. rewrite Hc. vm_compute. reflexivity.
Defined.

Lemma stages_of_one_tensor_ordered_witness :
  EngineContract.precedes (EngineContract.Complete 2)
    (EngineContract.Start 3)
    [EngineContract.Start 0; EngineContract.Complete 0;
     EngineContract.Start 1; EngineContract.Complete 1;
     EngineContract.Start 2; EngineContract.Complete 2;
     EngineContract.Start 3; EngineContract.Complete 3;
     EngineContract.Start 4; EngineContract.Complete 4].
Proof.
  assert (Hex : EngineContract.execution (engine synced_twice)
                  [EngineContract.Start 0; EngineContract.Complete 0;
                   EngineContract.Start 1; EngineContract.Complete 1;
                   EngineContract.Start 2; EngineContract.Complete 2;
                   EngineContract.Start 3; EngineContract.Complete 3;
                   EngineContract.Start 4; EngineContract.Complete 4]
                = true)
    by (vm_compute; reflexivity).
  assert (H2 : engine synced_twice !! 2%nat
               = Some (mkOpr
                         (second_stage_async_fn "byteps.grad" (Some 1%N)
                            "byteps.grad" 0 0)
                         (mkContext 1 0) [] [7%N] kNormal 0
                         "BytePSSecondStage"))
    by (vm_compute; reflexivity).
  assert (H3 : engine synced_twice !! 3%nat
               = Some (mkOpr
                         (first_stage_async_fn "byteps.grad" (Some 1%N)
                            "byteps.grad" 1 0)
                         (mkContext 1 0) [7%N] [] kNormal 0
                         "BytePSFirstStage"))
    by (vm_compute; reflexivity).
  apply (stages_of_one_tensor_ordered synced_twice _ 2 3 _ _
           synced_twice_reachable Hex H2 H3).
  - lia.
  - reflexivity.
  - left. discriminate.
Defined.

(** ** Independent tensors, and what a stage leaves alone *)

Section MoreReachFacts.

Context {G E : Type} `{!Common G E}.

Implicit Types (w : World G E).

Lemma shares_other (v v' : Var) :
  v <> v' -> EngineContract.shares [v] [v'] = false.
Proof.
  intros Hne. unfold EngineContract.shares, EngineContract.mem_var. cbn.
  now rewrite (proj2 (N.eqb_neq v v') Hne).
Qed.

Lemma declared_on_apart (v v' : Var) (o o' : Opr) :
  v <> v' -> declared_on v o -> declared_on v' o' ->
  EngineContract.waits_for o' o = false.
Proof.
  unfold declared_on, EngineContract.waits_for. intros Hne Ho Ho'.
  destruct (stage_of o), (stage_of o');
    destruct Ho as [-> ->], Ho' as [-> ->]; cbn [app];
    rewrite ?(shares_other v v' Hne); reflexivity.
Qed.

(** X15: tensors with different engine variables are independent.  In
    every reachable state, no operation of one waits for an operation
    of the other, whichever was pushed first. *)
Theorem independent_tensors_do_not_wait w (i j : nat) (oi oj : Opr) :
  reachable w ->
  engine w !! i = Some oi ->
  engine w !! j = Some oj ->
  tensor_var (tensor_of oi) w <> tensor_var (tensor_of oj) w ->
  EngineContract.waits_for oj oi = false
  /\ EngineContract.waits_for oi oj = false.
Proof.
  intros Hreach Hi Hj Hne.
  apply reachable_well_declared in Hreach. unfold well_declared in Hreach.
  rewrite Forall_lookup in Hreach.
  destruct (Hreach _ _ Hi) as (v & Hv & Hdi).
  destruct (Hreach _ _ Hj) as (v' & Hv' & Hdj).
  assert (Hvv : v <> v') by congruence.
  split.
  - now apply (declared_on_apart v v').
  - apply (declared_on_apart v' v); [congruence | exact Hdj | exact Hdi].
Qed.

(** The world after a call into the library on behalf of operation
    [i]: queue, counter and every other tensor as before. *)
Lemma async_call_frame (f : G -> Reply E * G) (input : NDArrayPtr) (i : nat)
    w :
  exists (st : Status) (w' : World G E),
    async_call f input
      (fun status => InvokeCompleteCallback (engine_on_complete i) status) w
    = Ret st w'
    /\ engine w' = engine w /\ op_count w' = op_count w
    /\ forall b : N, input <> Some b -> heap w' !! b = heap w !! b.
Proof.
  unfold async_call. destruct (f (bps w)) as [r g].
  eexists. eexists. split; [reflexivity|].
  assert (Hw : forall w0 : World G E,
            engine w0 = engine w -> op_count w0 = op_count w ->
            (forall b : N, input <> Some b -> heap w0 !! b = heap w !! b) ->
            engine (match delivered r with
                    | Some s =>
                        InvokeCompleteCallback (engine_on_complete i) s w0
                    | None => w0
                    end) = engine w
            /\ op_count (match delivered r with
                         | Some s =>
                             InvokeCompleteCallback (engine_on_complete i) s
                               w0
                         | None => w0
                         end) = op_count w
            /\ forall b : N, input <> Some b ->
                 heap (match delivered r with
                       | Some s =>
                           InvokeCompleteCallback (engine_on_complete i) s w0
                       | None => w0
                       end) !! b = heap w !! b).
  { intros w0 He Hc Hh. destruct (delivered r) as [s|]; [|now repeat split].
    unfold InvokeCompleteCallback, engine_on_complete.
    destruct (ok s); now repeat split. }
  apply Hw; destruct (written r) as [d|].
  - now rewrite engine_store_data.
  - reflexivity.
  - now rewrite op_count_store_data.
  - reflexivity.
  - intros b Hb. now rewrite heap_store_data_other.
  - reflexivity.
Qed.

(** X16: what a stage leaves alone.  However the run of a pushed
    operation ends, it has pushed nothing to the engine, has not
    touched the name counter, and has left the data of every tensor
    but its own as it was. *)
Theorem stage_frame (i : nat) (o : Opr) w (w' : World G E) :
  engine w !! i = Some o ->
  final (run_opr i w) = Some w' ->
  engine w' = engine w
  /\ op_count w' = op_count w
  /\ forall b : N, tensor_of o <> Some b -> heap w' !! b = heap w !! b.
Proof.
  intros Hi. unfold run_opr. rewrite Hi.
  assert (Hcap : captured (exec_fun o) = tensor_of o)
    by (unfold tensor_of; now destruct (exec_fun o)).
  destruct (ok (CheckInitialized (bps w))) eqn:Hok.
  - destruct (load (captured (exec_fun o)) w) as [nd|] eqn:Hload.
    + rewrite (call_async_fn_run _ (engine_on_complete i) w nd Hok Hload).
      destruct (staging_ok (exec_fun o) nd (bps w)).
      * unfold bind.
        destruct (async_call_frame (library_call (exec_fun o) nd)
                    (captured (exec_fun o)) i w)
          as (st & w0 & -> & He & Hc & Hh).
        rewrite Hcap in Hh.
        unfold ThrowIfError. destruct (ok st); cbn [final];
          intros [= <-]; now repeat split.
      * cbn [final]. intros [= <-]. now repeat split.
    + destruct (exec_fun o) as [c t n|c t n v pr|c t n v pr];
        cbn [call_async_fn captured] in *.
      * unfold DoInit, bind, gets, ThrowIfError, deref.
        rewrite Hok, Hload. discriminate.
      * destruct (stage_invalid_tensor c t n v pr (engine_on_complete i) w
                    Hok Hload) as [-> _].
        discriminate.
      * destruct (stage_invalid_tensor c t n v pr (engine_on_complete i) w
                    Hok Hload) as [_ ->].
        discriminate.
  - rewrite (stage_not_initialized _ _ _ Hok). cbn [final].
    intros [= <-]. now repeat split.
Qed.

End MoreReachFacts.

Lemma synced_both_reachable : reachable synced_both.
Proof.
  apply (reach_call (Sim.synced Sim.service 1 (Some "grad")) synced_both
           (Some 2%N) (Some "w") 0 0 0).
  - apply (reach_call (Sim.boot Sim.service) _ (Some 1%N) (Some "grad")
             0 0 0).
    + now apply reach_start.
    + vm_compute. reflexivity.
  - vm_compute. reflexivity.
Qed.

Lemma independent_tensors_do_not_wait_witness :
  EngineContract.waits_for
    (mkOpr (first_stage_async_fn "byteps.w" (Some 2%N) "byteps.w" 0 0)
       (mkContext 2 0) [9%N] [] kNormal 0 "BytePSFirstStage")
    (mkOpr (init_async_fn "byteps.grad" (Some 1%N) "byteps.grad")
       (mkContext 1 0) [] [7%N] kNormal 0 "BytePSInit")
  = false
  /\ EngineContract.execution (engine synced_both)
       [EngineContract.Start 0; EngineContract.Start 3;
        EngineContract.Complete 3; EngineContract.Start 4;
        EngineContract.Complete 0; EngineContract.Start 1]
     = true.
Proof.
  assert (H0 : engine synced_both !! 0%nat
               = Some (mkOpr
                         (init_async_fn "byteps.grad" (Some 1%N)
                            "byteps.grad")
                         (mkContext 1 0) [] [7%N] kNormal 0 "BytePSInit"))
    by (vm_compute; reflexivity).
  assert (H4 : engine synced_both !! 4%nat
               = Some (mkOpr
                         (first_stage_async_fn "byteps.w" (Some 2%N)
                            "byteps.w" 0 0)
                         (mkContext 2 0) [9%N] [] kNormal 0
                         "BytePSFirstStage"))
    by (vm_compute; reflexivity).
  assert (Hne : tensor_var (Some 1%N) synced_both
                <> tensor_var (Some 2%N) synced_both)
    by (vm_compute; discriminate).
  destruct (independent_tensors_do_not_wait synced_both 0 4 _ _
              synced_both_reachable H0 H4 Hne) as [Hw _].
  split; [exact Hw | reflexivity].
Defined.

Lemma stage_frame_witness :
  heap
    (default (Sim.synced Sim.service 1 (Some "grad"))
       (final (run_opr 2 (Sim.synced Sim.service 1 (Some "grad")))))
    !! 2%N
  = Some Sim.gpu_tensor.
Proof.
  assert (H2 : engine (Sim.synced Sim.service 1 (Some "grad")) !! 2%nat
               = Some (mkOpr
                         (second_stage_async_fn "byteps.grad" (Some 1%N)
                            "byteps.grad" 0 0)
                         (mkContext 1 0) [] [7%N] kNormal 0
                         "BytePSSecondStage"))
    by (vm_compute; reflexivity).
  assert (Hfin : final (run_opr 2 (Sim.synced Sim.service 1 (Some "grad")))
                 = Some (default (Sim.synced Sim.service 1 (Some "grad"))
                           (final (run_opr 2
                                     (Sim.synced Sim.service 1
                                        (Some "grad"))))))
    by (vm_compute; reflexivity).
  destruct (stage_frame 2 _ _ _ H2 Hfin) as (_ & _ & Hother).
  rewrite (Hother 2%N) by discriminate. vm_compute. reflexivity.
Defined.
